(** * Men's Tration backend: cycle calculator, idea lookup and phase explainer

    A shallow embedding of [src/main.py].  Python integers are [Z], Python
    strings are [string] (their UTF-8 bytes), dictionaries are [gmap]s with
    string keys, and every function that can raise returns a [result].
    The [while] loop of [calculate_cycle] is run with fuel; the theorems say
    how much is enough. *)

From Stdlib Require Import ZArith Lia Bool List Ascii String.
From stdpp Require Import gmap strings list.

Local Open Scope string_scope.
Local Open Scope Z_scope.

(** ** Exceptions and results *)

(** The exceptions the program can meet.  [HTTPException] is the one the
    handlers raise themselves; the arithmetic ones come from the integer and
    [datetime] operations; [OtherException] stands for any other class that
    derives from [Exception] (what the document store raises when it is not
    connected), and [BaseOnly] for the classes that derive from
    [BaseException] alone ([KeyboardInterrupt], [SystemExit]). *)
Inductive py_exception : Type :=
| HTTPException (status_code : Z) (detail : string)
| ValueError
| ZeroDivisionError
| OverflowError
| KeyError (key : string)
| OtherException (cls : string)
| BaseOnly (cls : string).

(** What an [except Exception:] clause catches. *)
Definition is_Exception (e : py_exception) : bool :=
  match e with
  | BaseOnly _ => false
  | _ => true
  end.

Inductive result (A : Type) : Type :=
| Ok (a : A)
| Raise (e : py_exception).
Arguments Ok {A} a.
Arguments Raise {A} e.

Definition bind {A B : Type} (r : result A) (k : A -> result B) : result B :=
  match r with
  | Ok a => k a
  | Raise e => Raise e
  end.

Notation "'do' x <- r ; k" := (bind r (fun x => k))
  (at level 10, x name, r at level 100, k at level 200).

(** ** The part of Python's [datetime] module the program uses *)

(** A naive [datetime] is kept as its proleptic Gregorian ordinal (what
    [toordinal()] returns: 1 is 0001-01-01) and the microsecond within that
    day (hour, minute, second and microsecond folded into one number). *)
Record datetime : Type := mk_datetime { dt_ordinal : Z; dt_micro : Z }.

Definition MAXORDINAL : Z := 3652059.        (* date(9999, 12, 31).toordinal() *)
Definition US_PER_DAY : Z := 86400000000.
Definition MAX_DELTA_DAYS : Z := 999999999.

Definition valid_datetime (d : datetime) : Prop :=
  1 <= dt_ordinal d <= MAXORDINAL /\ 0 <= dt_micro d < US_PER_DAY.

(** Microseconds since the start of day 0, the number line on which
    Python's difference of two datetimes is taken. *)
Definition abs_micro (d : datetime) : Z := dt_ordinal d * US_PER_DAY + dt_micro d.

(** A [timedelta], normalised as Python keeps it: any number of days,
    [0 <= seconds < 86400], [0 <= microseconds < 1000000]. *)
Record timedelta : Type :=
  mk_timedelta { td_days : Z; td_seconds : Z; td_microseconds : Z }.

Definition timedelta_of_micro (total : Z) : timedelta :=
  {| td_days := total / US_PER_DAY;
     td_seconds := (total mod US_PER_DAY) / 1000000;
     td_microseconds := total mod 1000000 |}.

(** [timedelta(days=n)]. *)
Definition timedelta_days (n : Z) : result timedelta :=
  if Z.abs n <=? MAX_DELTA_DAYS then Ok (timedelta_of_micro (n * US_PER_DAY))
  else Raise OverflowError.

(** [a - b] on two datetimes: the differences of the ordinals and of the
    times of day, normalised. *)
Definition datetime_sub (a b : datetime) : timedelta :=
  timedelta_of_micro ((dt_ordinal a - dt_ordinal b) * US_PER_DAY + (dt_micro a - dt_micro b)).

(** [d + delta]: the date must stay within 0001-01-01 .. 9999-12-31. *)
Definition datetime_add (d : datetime) (delta : timedelta) : result datetime :=
  let micro := dt_micro d + td_seconds delta * 1000000 + td_microseconds delta in
  let ordinal := dt_ordinal d + td_days delta + micro / US_PER_DAY in
  if (0 <? ordinal) && (ordinal <=? MAXORDINAL)
  then Ok {| dt_ordinal := ordinal; dt_micro := micro mod US_PER_DAY |}
  else Raise OverflowError.

(** Datetimes compare field by field, most significant first. *)
Definition datetime_cmp (a b : datetime) : comparison :=
  match dt_ordinal a ?= dt_ordinal b with
  | Eq => dt_micro a ?= dt_micro b
  | c => c
  end.

Definition datetime_le (a b : datetime) : bool :=
  match datetime_cmp a b with Gt => false | _ => true end.

Definition datetime_ge (a b : datetime) : bool :=
  match datetime_cmp a b with Lt => false | _ => true end.

(** *** Calendar arithmetic *)

Definition is_leap (year : Z) : bool :=
  (year mod 4 =? 0) && (negb (year mod 100 =? 0) || (year mod 400 =? 0)).

Definition days_before_year (year : Z) : Z :=
  let y := year - 1 in y * 365 + y / 4 - y / 100 + y / 400.

Definition DAYS_IN_MONTH : list Z :=
  [31; 28; 31; 30; 31; 30; 31; 31; 30; 31; 30; 31].

Definition month_length (month : Z) : Z :=
  nth (Z.to_nat (month - 1)) DAYS_IN_MONTH 0.

Definition days_in_month (year month : Z) : Z :=
  if (month =? 2) && is_leap year then 29 else month_length month.

Fixpoint sum_Z (l : list Z) : Z :=
  match l with
  | [] => 0
  | x :: l' => x + sum_Z l'
  end.

Definition days_before_month (year month : Z) : Z :=
  sum_Z (firstn (Z.to_nat (month - 1)) DAYS_IN_MONTH)
  + (if (2 <? month) && is_leap year then 1 else 0).

Definition ymd2ord (year month day : Z) : Z :=
  days_before_year year + days_before_month year month + day.

Definition DI400Y : Z := 146097.
Definition DI100Y : Z := 36524.
Definition DI4Y : Z := 1461.

(** [_ord2ymd], with Python's [divmod] steps kept one by one. *)
Definition ord2ymd (ordinal : Z) : Z * Z * Z :=
  let n := ordinal - 1 in
  let n400 := n / DI400Y in
  let n := n mod DI400Y in
  let year := n400 * 400 + 1 in
  let n100 := n / DI100Y in
  let n := n mod DI100Y in
  let n4 := n / DI4Y in
  let n := n mod DI4Y in
  let n1 := n / 365 in
  let n := n mod 365 in
  let year := year + n100 * 100 + n4 * 4 + n1 in
  if (n1 =? 4) || (n100 =? 4) then (year - 1, 12, 31)
  else
    let leapyear := (n1 =? 3) && (negb (n4 =? 24) || (n100 =? 3)) in
    let month := Z.shiftr (n + 50) 5 in
    let preceding :=
      sum_Z (firstn (Z.to_nat (month - 1)) DAYS_IN_MONTH)
      + (if (2 <? month) && leapyear then 1 else 0) in
    if n <? preceding then
      let month := month - 1 in
      let preceding :=
        preceding - (month_length month + (if (month =? 2) && leapyear then 1 else 0)) in
      (year, month, n - preceding + 1)
    else (year, month, n - preceding + 1).

(** *** [strptime] and [strftime] for the format [%Y-%m-%d] *)

(** [strptime] turns the format into the regular expression
    [(\d\d\d\d)-(1[0-2]|0[1-9]|[1-9])-(3[01]|[12]\d|0[1-9]|[1-9]| [1-9])],
    matches it at the start of the text, the alternatives tried in order,
    and refuses text that is left over.  Text is read here as ASCII: for
    the digits of other scripts, which Python's [\d] also matches, the model
    answers [ValueError]. *)

Definition digit_in (lo hi : Z) (c : ascii) : option Z :=
  let v := Z.of_N (N_of_ascii c) - 48 in
  if (lo <=? v) && (v <=? hi) then Some v else None.

Definition blank (c : ascii) : option Z :=
  if Ascii.eqb c " " then Some 0 else None.

Definition one_char (p : ascii -> option Z) (l : list ascii) : list (Z * list ascii) :=
  match l with
  | c :: rest => match p c with Some v => [(v, rest)] | None => [] end
  | _ => []
  end.

Definition two_chars (p1 p2 : ascii -> option Z) (l : list ascii) : list (Z * list ascii) :=
  match l with
  | c1 :: c2 :: rest =>
      match p1 c1, p2 c2 with
      | Some a, Some b => [(10 * a + b, rest)]
      | _, _ => []
      end
  | _ => []
  end.

Definition year_alts (l : list ascii) : list (Z * list ascii) :=
  match two_chars (digit_in 0 9) (digit_in 0 9) l with
  | [(hi, rest)] =>
      match two_chars (digit_in 0 9) (digit_in 0 9) rest with
      | [(lo, rest')] => [(100 * hi + lo, rest')]
      | _ => []
      end
  | _ => []
  end.

Definition month_alts (l : list ascii) : list (Z * list ascii) :=
  two_chars (digit_in 1 1) (digit_in 0 2) l
  ++ two_chars (digit_in 0 0) (digit_in 1 9) l
  ++ one_char (digit_in 1 9) l.

Definition day_alts (l : list ascii) : list (Z * list ascii) :=
  two_chars (digit_in 3 3) (digit_in 0 1) l
  ++ two_chars (digit_in 1 2) (digit_in 0 9) l
  ++ two_chars (digit_in 0 0) (digit_in 1 9) l
  ++ one_char (digit_in 1 9) l
  ++ two_chars blank (digit_in 1 9) l.

Definition dash (l : list ascii) : option (list ascii) :=
  match l with
  | c :: rest => if Ascii.eqb c "-" then Some rest else None
  | [] => None
  end.

(** The first alternative, in order, from which the rest of the pattern
    matches. *)
Fixpoint first_match {A B : Type} (alts : list A) (k : A -> option B) : option B :=
  match alts with
  | [] => None
  | a :: alts' =>
      match k a with
      | Some b => Some b
      | None => first_match alts' k
      end
  end.

Definition match_ymd (l : list ascii) : option (Z * Z * Z * list ascii) :=
  first_match (year_alts l) (fun '(y, l1) =>
    match dash l1 with
    | None => None
    | Some l2 =>
        first_match (month_alts l2) (fun '(m, l3) =>
          match dash l3 with
          | None => None
          | Some l4 => first_match (day_alts l4) (fun '(d, l5) => Some (y, m, d, l5))
          end)
    end).

(** [datetime.strptime(date_str, "%Y-%m-%d")]: midnight of the day read, or
    [ValueError]. *)
Definition strptime_ymd (date_str : string) : result datetime :=
  match match_ymd (list_ascii_of_string date_str) with
  | Some (y, m, d, []) =>
      if (1 <=? y) && (y <=? 9999) && (1 <=? d) && (d <=? days_in_month y m)
      then Ok {| dt_ordinal := ymd2ord y m d; dt_micro := 0 |}
      else Raise ValueError
  | _ => Raise ValueError
  end.

Definition digit_char (n : Z) : ascii := ascii_of_N (Z.to_N (48 + n mod 10)).

Definition pad2 (n : Z) : string :=
  String (digit_char (n / 10)) (String (digit_char n) EmptyString).

Definition pad4 (n : Z) : string :=
  String (digit_char (n / 1000)) (String (digit_char (n / 100)) (pad2 n)).

(** [d.strftime("%Y-%m-%d")], the year written with four digits (for the
    years before 1000 the C library of the platform decides whether the
    year is padded; the model pads). *)
Definition strftime_ymd (d : datetime) : string :=
  let '(y, m, day) := ord2ymd (dt_ordinal d) in
  String.append (pad4 y) (String "-" (String.append (pad2 m) (String "-" (pad2 day)))).

(** ** The cycle calculator ([src/main.py], lines 22-79) *)

Record CycleRequest : Type :=
  { partner_name : option string; cycle_start : string; cycle_length : Z }.

Definition PHASES : list (Z * Z * string * string) :=
  [ (0, 5, "period", "Menstruation");
    (6, 13, "follicular", "Follicular");
    (14, 15, "ovulation", "Ovulation");
    (16, 27, "luteal", "Luteal") ].

Definition parse_date (date_str : string) : result datetime :=
  match strptime_ymd date_str with
  | Ok d => Ok d
  | Raise ValueError => Raise (HTTPException 400 "Date must be YYYY-MM-DD")
  | Raise e => Raise e
  end.

(** Python's [a % b] on integers: the remainder has the sign of [b], and
    [b = 0] raises. *)
Definition py_mod (a b : Z) : result Z :=
  if b =? 0 then Raise ZeroDivisionError else Ok (a mod b).

Definition day_in_cycle (cycle_start : datetime) (cycle_length : Z)
    (target_date : datetime) : result Z :=
  do delta_days <- py_mod (td_days (datetime_sub target_date cycle_start)) cycle_length;
  Ok delta_days.

(** The [for] loop of [phase_for_day] over a table. *)
Fixpoint phase_scan (table : list (Z * Z * string * string)) (day_index : Z) : string :=
  match table with
  | [] => "luteal"
  | (start, end_, key, _) :: table' =>
      if (start <=? day_index) && (day_index <=? end_) then key
      else phase_scan table' day_index
  end.

Definition phase_for_day (day_index : Z) : string := phase_scan PHASES day_index.

(** The expression [next_start + timedelta(days=data.cycle_length)]. *)
Definition plus_cycle (next_start : datetime) (cycle_length : Z) : result datetime :=
  do delta <- timedelta_days cycle_length;
  datetime_add next_start delta.

(** The [while] loop of lines 69-70, [fuel] bounding its iterations: [None]
    when the fuel runs out, otherwise the exception raised or the value of
    [next_start] on leaving the loop. *)
Fixpoint next_start_loop (fuel : nat) (next_start today : datetime) (cycle_length : Z)
    : option (result datetime) :=
  match fuel with
  | O => None
  | S fuel' =>
      match plus_cycle next_start cycle_length with
      | Raise e => Some (Raise e)
      | Ok bound =>
          if datetime_le bound today then
            match plus_cycle next_start cycle_length with
            | Raise e => Some (Raise e)
            | Ok next_start' => next_start_loop fuel' next_start' today cycle_length
            end
          else Some (Ok next_start)
      end
  end.

(** Lines 68-71: the loop, then the conditional expression. *)
Definition predict_next_period_start (fuel : nat) (start : datetime) (cycle_length : Z)
    (today : datetime) : option (result datetime) :=
  match next_start_loop fuel start today cycle_length with
  | None => None
  | Some (Raise e) => Some (Raise e)
  | Some (Ok next_start) =>
      Some (if datetime_ge next_start today then Ok next_start
            else plus_cycle next_start cycle_length)
  end.

Record CycleResponse : Type :=
  { resp_today : string;
    resp_day_in_cycle : Z;
    resp_phase : string;
    resp_next_period_start : string;
    resp_cycle_length : Z }.

(** [calculate_cycle]; the clock reading [datetime.utcnow()] is the
    argument [today]. *)
Definition calculate_cycle (fuel : nat) (data : CycleRequest) (today : datetime)
    : option (result CycleResponse) :=
  match parse_date (cycle_start data) with
  | Raise e => Some (Raise e)
  | Ok start =>
      match day_in_cycle start (cycle_length data) today with
      | Raise e => Some (Raise e)
      | Ok idx =>
          let phase := phase_for_day idx in
          match predict_next_period_start fuel start (cycle_length data) today with
          | None => None
          | Some (Raise e) => Some (Raise e)
          | Some (Ok next_period_start) =>
              Some (Ok {| resp_today := strftime_ymd today;
                          resp_day_in_cycle := idx;
                          resp_phase := phase;
                          resp_next_period_start := strftime_ymd next_period_start;
                          resp_cycle_length := cycle_length data |})
          end
      end
  end.

(** ** The idea lookup ([src/main.py], lines 82-101) *)

(** The values met in a document: text, lists of text (the tags), numbers,
    and the store's own identifiers and timestamps. *)
Inductive py_value : Type :=
| VStr (s : string)
| VInt (n : Z)
| VList (l : list string)
| VObjectId (hex : string)
| VDatetime (d : datetime)
| VNone.

(** What a call of the document store comes to: the documents found, or an
    exception. *)
Inductive store_outcome : Type :=
| Returns (docs : list (gmap string py_value))
| Raises (e : py_exception).

Record IdeasResponse : Type := { items : list (gmap string py_value) }.

(** The list built in the [except] branch. *)
Definition FALLBACK_IDEAS : list (gmap string py_value) :=
  [ {[ "phase" := VStr "period"; "title" := VStr "Comfort kit";
       "description" := VStr "Heat pad, chocolate, tea, low-key movie night" ]};
    {[ "phase" := VStr "period"; "title" := VStr "Take chores off her plate";
       "description" := VStr "Run errands, cook, tidy up without being asked" ]};
    {[ "phase" := VStr "follicular"; "title" := VStr "Plan a fun date";
       "description" := VStr "She may feel more energetic—try a new activity together" ]};
    {[ "phase" := VStr "ovulation"; "title" := VStr "Hype her up";
       "description" := VStr "Compliments and quality time—she'll likely feel confident" ]};
    {[ "phase" := VStr "luteal"; "title" := VStr "Gentle support";
       "description" := VStr "Be patient, offer snacks, suggest cozy plans" ]} ].

(** The three [d.pop(key, None)] of the loop body: a key that is absent is
    no error. *)
Definition pop_internal (d : gmap string py_value) : gmap string py_value :=
  delete "updated_at" (delete "created_at" (delete "_id" d)).

(** The expression [{"phase": phase} if phase else {}]: an absent and an
    empty [phase] both give no filter. *)
Definition filter_dict_of (phase : option string) : gmap string py_value :=
  match phase with
  | Some p => if String.eqb p "" then ∅ else {[ "phase" := VStr p ]}
  | None => ∅
  end.

Section Ideas.
(** [database.get_documents] is not among the sources: the handler is
    modelled over any store, given by the outcome of each call. *)
Variable get_documents : string -> gmap string py_value -> Z -> store_outcome.

(** Popping keys twice is popping them once, so a document that occurs
    several times in [docs] comes out as [pop_internal] of it each time. *)
Definition get_ideas (phase : option string) (limit : Z) : result IdeasResponse :=
  let filter_dict := filter_dict_of phase in
  do docs <-
    match get_documents "idea" filter_dict limit with
    | Returns docs => Ok docs
    | Raises e => if is_Exception e then Ok FALLBACK_IDEAS else Raise e
    end;
  Ok {| items := map pop_internal docs |}.
End Ideas.

(** ** The phase explainer ([src/main.py], lines 104-143) *)

Record ExplainResponse : Type :=
  { phase : string; summary : string; tips : list string }.

(** [str.lower] on the bytes of the text: the letters A-Z go to a-z.  Python
    also lowercases letters outside ASCII; the only one it sends to an ASCII
    letter is the Kelvin sign, to k, which occurs in none of the keys below,
    so both agree on which texts lowercase to a key, and on those texts. *)
Definition lower_ascii (c : ascii) : ascii :=
  let n := N_of_ascii c in
  if ((65 <=? n) && (n <=? 90))%N then ascii_of_N (n + 32) else c.

Fixpoint lower (s : string) : string :=
  match s with
  | EmptyString => EmptyString
  | String c s' => String (lower_ascii c) (lower s')
  end.

Definition summaries : gmap string string :=
  {[ "period" := "Bleeding phase. Energy may be lower; comfort and patience go a long way.";
     "follicular" := "Rising hormones and energy. Great for plans, workouts, creativity.";
     "ovulation" := "Peak fertility. Confidence and social energy often highest.";
     "luteal" := "PMS window. Sensitivity may rise—opt for calm, reassurance, and help." ]}.

Definition tips_map : gmap string (list string) :=
  {[ "period" :=
       [ "Offer heat pad, cozy foods, and space if needed";
         "Keep plans flexible and low-pressure";
         "Proactively handle chores and logistics" ];
     "follicular" :=
       [ "Suggest a new activity or date";
         "Encourage goals and celebrate progress";
         "Share optimistic plans—she may be more up for it" ];
     "ovulation" :=
       [ "Give genuine compliments—she may feel her best";
         "Plan social time or a dress-up night";
         "Be playful and confident" ];
     "luteal" :=
       [ "Be patient; validate feelings without fixing right away";
         "Keep snacks and water handy; offer gentle support";
         "Avoid big conflicts—focus on comfort and reassurance" ] ]}.

Definition explain (phase : string) : result ExplainResponse :=
  let phase := lower phase in
  match summaries !! phase with
  | None =>
      Raise (HTTPException 400 "Invalid phase. Use: period, follicular, ovulation, luteal")
  | Some summary =>
      match tips_map !! phase with
      | None => Raise (KeyError phase)
      | Some tips => Ok {| phase := phase; summary := summary; tips := tips |}
      end
  end.

(** The four phase keys. *)
Definition PHASE_KEYS : list string := ["period"; "follicular"; "ovulation"; "luteal"].

(** The number of documents of a list that carry a given phase. *)
Definition has_phase (key : string) (d : gmap string py_value) : bool :=
  match d !! "phase" with
  | Some (VStr s) => String.eqb s key
  | _ => false
  end.

Definition count_phase (key : string) (docs : list (gmap string py_value)) : nat :=
  length (filter (fun d => has_phase key d = true) docs).

Definition INVALID_PHASE : py_exception :=
  HTTPException 400 "Invalid phase. Use: period, follicular, ovulation, luteal".

(** ** Auxiliary notions for the statements *)

(** [n] whole days later, at the same time of day. *)
Definition shift_days (d : datetime) (n : Z) : datetime :=
  {| dt_ordinal := dt_ordinal d + n; dt_micro := dt_micro d |}.

Definition valid_time (d : datetime) : Prop := 0 <= dt_micro d < US_PER_DAY.

(** The prediction in the words of the specification, on dates without
    an upper end: repeat [next_start += cycle_length] while
    [next_start + cycle_length <= reference_date]; then [next_start] if
    [next_start >= reference_date], else [next_start + cycle_length]. *)
Inductive spec_loop (cycle_length : Z) (reference_date : datetime)
    : datetime -> datetime -> Prop :=
| spec_loop_done next_start :
    datetime_le (shift_days next_start cycle_length) reference_date = false ->
    spec_loop cycle_length reference_date next_start next_start
| spec_loop_step next_start final :
    datetime_le (shift_days next_start cycle_length) reference_date = true ->
    spec_loop cycle_length reference_date (shift_days next_start cycle_length) final ->
    spec_loop cycle_length reference_date next_start final.

Definition spec_predict (cycle_start : datetime) (cycle_length : Z)
    (reference_date predicted : datetime) : Prop :=
  exists next_start,
    spec_loop cycle_length reference_date cycle_start next_start /\
    predicted = if datetime_ge next_start reference_date then next_start
                else shift_days next_start cycle_length.

(** Midnight of a calendar day. *)
Definition midnight (year month day : Z) : datetime :=
  {| dt_ordinal := ymd2ord year month day; dt_micro := 0 |}.

(** Fuel that is enough whichever way the loop walks. *)
Definition enough_fuel (start : datetime) : nat :=
  S (Z.to_nat (Z.max (dt_ordinal start) (MAXORDINAL - dt_ordinal start))).


(** A range of the phase table contains a day index. *)
Definition covers (range : Z * Z * string * string) (day_index : Z) : Prop :=
  let '(start, end_, _, _) := range in start <= day_index <= end_.

Definition range_key (range : Z * Z * string * string) : string :=
  let '(_, _, key, _) := range in key.


(** ** The status probe ([src/main.py], lines 146-173) *)

(** [database.db] is [None] or a connected handle.  Of a handle the probe
    reads the attribute [name] and calls [list_collection_names()]; the
    model is given what each of the two comes to. *)
Inductive attr_outcome : Type :=
| AttrValue (v : py_value)
| AttrMissing
| AttrRaises (e : py_exception).

Inductive names_outcome : Type :=
| NamesReturned (names : list string)
| NamesRaised (e : py_exception).

Record db_handle : Type :=
  { db_name : attr_outcome; db_list_collection_names : names_outcome }.

(** The truth value of [os.getenv(key)]: unset and empty both count as
    false. *)
Definition truthy (v : option string) : bool :=
  match v with
  | Some s => negb (String.eqb s "")
  | None => false
  end.

Definition set_flag (v : option string) : py_value :=
  VStr (if truthy v then "✅ Set" else "❌ Not Set").

Definition INITIAL_STATUS : gmap string py_value :=
  {[ "backend" := VStr "✅ Running";
     "database" := VStr "❌ Not Available";
     "database_url" := VStr "❌ Not Set";
     "database_name" := VStr "❌ Not Set";
     "connection_status" := VStr "Not Connected";
     "collections" := VList [] ]}.

Section Status.
(** [str(e)], which depends on the class of the exception; its first 50
    characters are reported (text is read as ASCII, one byte a character). *)
Variable str_of : py_exception -> string.

(** The inner [try] of lines 163-167, on the status built so far. *)
Definition probe_collections (db : db_handle) (status : gmap string py_value)
    : result (gmap string py_value) :=
  match db_list_collection_names db with
  | NamesReturned names =>
      let status := <[ "collections" := VList (firstn 10 names) ]> status in
      Ok (<[ "database" := VStr "✅ Connected & Working" ]> status)
  | NamesRaised e =>
      if is_Exception e then
        Ok (<[ "database" :=
                 VStr (String.append "⚠️  Connected but Error: "
                         (substring 0 50 (str_of e))) ]> status)
      else Raise e
  end.

(** The outer [try] of lines 157-169: the assignments made before an
    exception stay in the status. *)
Definition probe_db (db : option db_handle) (status : gmap string py_value)
    : result (gmap string py_value) :=
  match db with
  | None => Ok status
  | Some handle =>
      let status := <[ "database" := VStr "✅ Available" ]> status in
      let status := <[ "database_url" := VStr "✅ Set" ]> status in
      match db_name handle with
      | AttrRaises e =>
          if is_Exception e then
            Ok (<[ "database" :=
                     VStr (String.append "❌ Error: " (substring 0 50 (str_of e))) ]> status)
          else Raise e
      | found =>
          let name :=
            match found with
            | AttrValue v => v
            | _ => VStr "✅ Connected"
            end in
          let status := <[ "database_name" := name ]> status in
          let status := <[ "connection_status" := VStr "Connected" ]> status in
          probe_collections handle status
      end
  end.

(** [test_database]; [getenv] is the environment of the process. *)
Definition test_database (db : option db_handle) (getenv : string -> option string)
    : result (gmap string py_value) :=
  do status <- probe_db db INITIAL_STATUS;
  let status := <[ "database_url" := set_flag (getenv "DATABASE_URL") ]> status in
  let status := <[ "database_name" := set_flag (getenv "DATABASE_NAME") ]> status in
  Ok status.
End Status.

Definition STATUS_KEYS : list string :=
  ["backend"; "database"; "database_url"; "database_name"; "connection_status";
   "collections"].

(** A connected database, an environment and the report for them, for the
    examples. *)
Definition sample_db : db_handle :=
  {| db_name := AttrValue (VStr "cycles");
     db_list_collection_names := NamesReturned ["idea"; "cycle"] |}.

Definition sample_env (key : string) : option string :=
  if String.eqb key "DATABASE_URL" then Some "mongodb://localhost:27017" else None.

Definition sample_report : gmap string py_value :=
  match test_database (fun _ => "") (Some sample_db) sample_env with
  | Ok status => status
  | Raise _ => ∅
  end.

(** ** Auxiliary notions for the calendar *)

(** The last steps of [ord2ymd]: month and day from the day of the year
    (counted from 0) and whether the year is a leap year. *)
Definition month_day (leapyear : bool) (n : Z) : Z * Z :=
  let month := Z.shiftr (n + 50) 5 in
  let preceding :=
    sum_Z (firstn (Z.to_nat (month - 1)) DAYS_IN_MONTH)
    + (if (2 <? month) && leapyear then 1 else 0) in
  if n <? preceding then
    let month := month - 1 in
    let preceding :=
      preceding - (month_length month + (if (month =? 2) && leapyear then 1 else 0)) in
    (month, n - preceding + 1)
  else (month, n - preceding + 1).

(** The check that [month_day] answers with a day of a month of the year
    that lies [n] days after its first day. *)
Definition month_day_ok (leapyear : bool) (n : Z) : bool :=
  let '(m, d) := month_day leapyear n in
  (1 <=? m) && (m <=? 12) && (1 <=? d)
  && (d <=? (if (m =? 2) && leapyear then 29 else month_length m))
  && (sum_Z (firstn (Z.to_nat (m - 1)) DAYS_IN_MONTH)
      + (if (2 <? m) && leapyear then 1 else 0) + d =? n + 1).

(** The text [strftime_ymd] writes for a year, a month and a day. *)
Definition ymd_text (y m d : Z) : string :=
  String.append (pad4 y) (String "-" (String.append (pad2 m) (String "-" (pad2 d)))).

(** ** Arithmetic of the datetime model *)

Lemma valid_datetime_time d : valid_datetime d -> valid_time d.
Proof. intros [_ H]. exact H. Qed.

Lemma shift_days_0 d : shift_days d 0 = d.
Proof. destruct d as [o m]. unfold shift_days. simpl. f_equal. lia. Qed.

Lemma shift_days_shift d a b : shift_days (shift_days d a) b = shift_days d (a + b).
Proof. unfold shift_days. simpl. f_equal. lia. Qed.

Lemma valid_time_shift d n : valid_time d -> valid_time (shift_days d n).
Proof. intros H. exact H. Qed.

Lemma datetime_le_iff a b :
  datetime_le a b = true <->
  dt_ordinal a < dt_ordinal b \/ (dt_ordinal a = dt_ordinal b /\ dt_micro a <= dt_micro b).
Proof.
  unfold datetime_le, datetime_cmp.
  destruct (Z.compare_spec (dt_ordinal a) (dt_ordinal b));
    [destruct (Z.compare_spec (dt_micro a) (dt_micro b)) | | ];
    split; intros; try lia; try reflexivity; try discriminate.
Qed.

Lemma datetime_le_false_iff a b :
  datetime_le a b = false <->
  dt_ordinal b < dt_ordinal a \/ (dt_ordinal a = dt_ordinal b /\ dt_micro b < dt_micro a).
Proof.
  unfold datetime_le, datetime_cmp.
  destruct (Z.compare_spec (dt_ordinal a) (dt_ordinal b));
    [destruct (Z.compare_spec (dt_micro a) (dt_micro b)) | | ];
    split; intros; try lia; try reflexivity; try discriminate.
Qed.

Lemma datetime_ge_iff a b :
  datetime_ge a b = true <->
  dt_ordinal b < dt_ordinal a \/ (dt_ordinal a = dt_ordinal b /\ dt_micro b <= dt_micro a).
Proof.
  unfold datetime_ge, datetime_cmp.
  destruct (Z.compare_spec (dt_ordinal a) (dt_ordinal b));
    [destruct (Z.compare_spec (dt_micro a) (dt_micro b)) | | ];
    split; intros; try lia; try reflexivity; try discriminate.
Qed.

Lemma datetime_ge_false_iff a b :
  datetime_ge a b = false <->
  dt_ordinal a < dt_ordinal b \/ (dt_ordinal a = dt_ordinal b /\ dt_micro a < dt_micro b).
Proof.
  unfold datetime_ge, datetime_cmp.
  destruct (Z.compare_spec (dt_ordinal a) (dt_ordinal b));
    [destruct (Z.compare_spec (dt_micro a) (dt_micro b)) | | ];
    split; intros; try lia; try reflexivity; try discriminate.
Qed.

Lemma datetime_ge_refl a : datetime_ge a a = true.
Proof. apply datetime_ge_iff. lia. Qed.

(** [timedelta(days=n)] has [n] days and nothing else. *)
Lemma timedelta_of_whole_days n :
  timedelta_of_micro (n * US_PER_DAY) = {| td_days := n; td_seconds := 0; td_microseconds := 0 |}.
Proof.
  unfold timedelta_of_micro, US_PER_DAY.
  rewrite Z.div_mul by lia. rewrite Z.mod_mul by lia.
  replace (n * 86400000000) with (n * 86400 * 1000000) by lia.
  rewrite Z.mod_mul by lia. reflexivity.
Qed.

(** The difference of two datetimes, in whole days, is the floor of their
    distance in microseconds. *)
Lemma datetime_sub_days a b :
  td_days (datetime_sub a b) = (abs_micro a - abs_micro b) / US_PER_DAY.
Proof.
  unfold datetime_sub, timedelta_of_micro, abs_micro. cbn [td_days].
  f_equal. ring.
Qed.

(** What [next_start + timedelta(days=cycle_length)] evaluates to. *)
Lemma plus_cycle_eq d n :
  valid_time d ->
  plus_cycle d n =
    if (Z.abs n <=? MAX_DELTA_DAYS) && ((0 <? dt_ordinal d + n) && (dt_ordinal d + n <=? MAXORDINAL))
    then Ok (shift_days d n) else Raise OverflowError.
Proof.
  intros Hv. unfold plus_cycle, timedelta_days.
  destruct (Z.abs n <=? MAX_DELTA_DAYS); [|reflexivity].
  cbn [bind andb]. rewrite timedelta_of_whole_days.
  unfold datetime_add. cbn [td_days td_seconds td_microseconds].
  replace (dt_micro d + 0 * 1000000 + 0) with (dt_micro d) by lia.
  unfold valid_time in Hv.
  rewrite Z.div_small by exact Hv. rewrite Z.mod_small by exact Hv.
  replace (dt_ordinal d + n + 0) with (dt_ordinal d + n) by lia.
  reflexivity.
Qed.

Lemma plus_cycle_Ok d n d' :
  valid_time d -> plus_cycle d n = Ok d' ->
  d' = shift_days d n /\ 0 < dt_ordinal d + n <= MAXORDINAL /\ Z.abs n <= MAX_DELTA_DAYS.
Proof.
  intros Hv. rewrite (plus_cycle_eq d n Hv).
  destruct (Z.abs n <=? MAX_DELTA_DAYS) eqn:E1; [|discriminate].
  destruct (0 <? dt_ordinal d + n) eqn:E2; [|discriminate].
  destruct (dt_ordinal d + n <=? MAXORDINAL) eqn:E3; [|discriminate].
  cbn [andb]. intros [= <-]. split; [reflexivity | lia].
Qed.

Lemma plus_cycle_Raise d n e :
  valid_time d -> plus_cycle d n = Raise e -> e = OverflowError.
Proof.
  intros Hv. rewrite (plus_cycle_eq d n Hv).
  destruct (_ && _); [discriminate|]. intros [= <-]. reflexivity.
Qed.

Lemma plus_cycle_in_range d n :
  valid_time d -> 1 <= dt_ordinal d -> 0 < n -> dt_ordinal d + n <= MAXORDINAL ->
  plus_cycle d n = Ok (shift_days d n).
Proof.
  intros Hv Ho Hn Hmax. rewrite (plus_cycle_eq d n Hv).
  unfold MAXORDINAL, MAX_DELTA_DAYS in *.
  replace (Z.abs n <=? 999999999) with true by (symmetry; apply Z.leb_le; lia).
  replace (0 <? dt_ordinal d + n) with true by (symmetry; apply Z.ltb_lt; lia).
  replace (dt_ordinal d + n <=? 3652059) with true by (symmetry; apply Z.leb_le; lia).
  reflexivity.
Qed.

(** ** The prediction loop *)

Section PredictLoop.
Variable today : datetime.
Variable cycle_length : Z.

(** One turn of the loop: the sum is evaluated twice in the source, to
    the same value. *)
Lemma next_start_loop_S fuel next_start :
  next_start_loop (S fuel) next_start today cycle_length =
    match plus_cycle next_start cycle_length with
    | Raise e => Some (Raise e)
    | Ok bound =>
        if datetime_le bound today
        then next_start_loop fuel bound today cycle_length
        else Some (Ok next_start)
    end.
Proof.
  cbn [next_start_loop].
  destruct (plus_cycle next_start cycle_length); [|reflexivity].
  destruct (datetime_le a today); reflexivity.
Qed.

(** More fuel never changes an answer. *)
Lemma next_start_loop_more fuel :
  forall next_start r extra,
    next_start_loop fuel next_start today cycle_length = Some r ->
    next_start_loop (fuel + extra) next_start today cycle_length = Some r.
Proof.
  induction fuel as [|fuel IH]; intros next_start r extra H.
  - discriminate H.
  - change (S fuel + extra)%nat with (S (fuel + extra)).
    rewrite next_start_loop_S in *.
    destruct (plus_cycle next_start cycle_length) as [bound|e]; [|exact H].
    destruct (datetime_le bound today); [apply IH|]; exact H.
Qed.

(** What the loop returns is reached by the specification's loop, after
    some number [k] of whole cycles. *)
Lemma next_start_loop_sound fuel :
  forall next_start final,
    valid_time next_start ->
    next_start_loop fuel next_start today cycle_length = Some (Ok final) ->
    spec_loop cycle_length today next_start final /\
    exists k : nat, final = shift_days next_start (Z.of_nat k * cycle_length).
Proof.
  induction fuel as [|fuel IH]; intros next_start final Hv H.
  - discriminate H.
  - rewrite next_start_loop_S in H.
    destruct (plus_cycle next_start cycle_length) as [bound|e] eqn:Hplus; [|discriminate H].
    apply plus_cycle_Ok in Hplus as [-> _]; [|exact Hv].
    destruct (datetime_le (shift_days next_start cycle_length) today) eqn:Hle.
    + destruct (IH _ _ (valid_time_shift _ _ Hv) H) as [Hspec [k Hk]].
      split; [apply spec_loop_step; assumption|].
      exists (S k). rewrite Hk, shift_days_shift. f_equal. lia.
    + injection H as <-. split; [apply spec_loop_done; exact Hle|].
      exists O. rewrite Z.mul_0_l, shift_days_0. reflexivity.
Qed.

(** The only exception the loop can raise is [OverflowError]. *)
Lemma next_start_loop_raises fuel :
  forall next_start e,
    valid_time next_start ->
    next_start_loop fuel next_start today cycle_length = Some (Raise e) -> e = OverflowError.
Proof.
  induction fuel as [|fuel IH]; intros next_start e Hv H.
  - discriminate H.
  - rewrite next_start_loop_S in H.
    destruct (plus_cycle next_start cycle_length) as [bound|e'] eqn:Hplus.
    + apply plus_cycle_Ok in Hplus as [-> _]; [|exact Hv].
      destruct (datetime_le _ today); [|discriminate H].
      exact (IH _ _ (valid_time_shift _ _ Hv) H).
    + injection H as <-. exact (plus_cycle_Raise _ _ _ Hv Hplus).
Qed.

(** With a positive cycle length the loop ends: every turn moves
    [next_start] towards the last representable day. *)
Lemma next_start_loop_total_pos fuel :
  0 < cycle_length ->
  forall next_start,
    valid_time next_start ->
    Z.max 0 (MAXORDINAL - dt_ordinal next_start) < Z.of_nat fuel ->
    exists r, next_start_loop fuel next_start today cycle_length = Some r.
Proof.
  intros Hpos. induction fuel as [|fuel IH]; intros next_start Hv Hfuel.
  - lia.
  - rewrite next_start_loop_S.
    destruct (plus_cycle next_start cycle_length) as [bound|e] eqn:Hplus; [|eauto].
    apply plus_cycle_Ok in Hplus as [-> [Hrange _]]; [|exact Hv].
    destruct (datetime_le _ today); [|eauto].
    apply IH; [apply valid_time_shift; exact Hv|].
    unfold shift_days. cbn [dt_ordinal]. lia.
Qed.

(** With a negative one it ends as well, walking back to the first day. *)
Lemma next_start_loop_total_neg fuel :
  cycle_length < 0 ->
  forall next_start,
    valid_time next_start ->
    Z.max 0 (dt_ordinal next_start) < Z.of_nat fuel ->
    exists r, next_start_loop fuel next_start today cycle_length = Some r.
Proof.
  intros Hneg. induction fuel as [|fuel IH]; intros next_start Hv Hfuel.
  - lia.
  - rewrite next_start_loop_S.
    destruct (plus_cycle next_start cycle_length) as [bound|e] eqn:Hplus; [|eauto].
    apply plus_cycle_Ok in Hplus as [-> [Hrange _]]; [|exact Hv].
    destruct (datetime_le _ today); [|eauto].
    apply IH; [apply valid_time_shift; exact Hv|].
    unfold shift_days. cbn [dt_ordinal]. lia.
Qed.

(** While the dates stay below the last representable day, no turn of
    the loop overflows. *)
Lemma next_start_loop_in_range fuel :
  0 < cycle_length ->
  dt_ordinal today + cycle_length <= MAXORDINAL ->
  forall next_start r,
    valid_time next_start ->
    1 <= dt_ordinal next_start ->
    dt_ordinal next_start + cycle_length <= MAXORDINAL ->
    next_start_loop fuel next_start today cycle_length = Some r ->
    exists final,
      r = Ok final /\ valid_time final /\ 1 <= dt_ordinal final /\
      dt_ordinal final + cycle_length <= MAXORDINAL.
Proof.
  intros Hpos Htoday. induction fuel as [|fuel IH]; intros next_start r Hv Hlo Hhi H.
  - discriminate H.
  - rewrite next_start_loop_S in H.
    rewrite (plus_cycle_in_range _ _ Hv Hlo Hpos Hhi) in H.
    destruct (datetime_le (shift_days next_start cycle_length) today) eqn:Hle.
    + apply datetime_le_iff in Hle. cbn [shift_days dt_ordinal dt_micro] in Hle.
      apply (IH (shift_days next_start cycle_length)); [exact Hv| | |exact H];
        cbn [shift_days dt_ordinal]; lia.
    + injection H as <-. exists next_start. auto.
Qed.
End PredictLoop.

(** *** Lines 68-71 as a whole *)

Lemma predict_more fuel start cycle_length today r extra :
  predict_next_period_start fuel start cycle_length today = Some r ->
  predict_next_period_start (fuel + extra) start cycle_length today = Some r.
Proof.
  unfold predict_next_period_start. intros H.
  destruct (next_start_loop fuel start today cycle_length) as [r0|] eqn:Hloop; [|discriminate H].
  rewrite (next_start_loop_more _ _ _ _ _ extra Hloop). exact H.
Qed.

Lemma predict_sound fuel start cycle_length today predicted :
  valid_time start ->
  predict_next_period_start fuel start cycle_length today = Some (Ok predicted) ->
  spec_predict start cycle_length today predicted /\
  exists k : nat, predicted = shift_days start (Z.of_nat k * cycle_length).
Proof.
  unfold predict_next_period_start. intros Hv H.
  destruct (next_start_loop fuel start today cycle_length) as [[final|e]|] eqn:Hloop;
    try discriminate H.
  destruct (next_start_loop_sound _ _ _ _ _ Hv Hloop) as [Hspec [k Hk]].
  destruct (datetime_ge final today) eqn:Hge.
  - injection H as <-. split.
    + exists final. rewrite Hge. auto.
    + exists k. exact Hk.
  - injection H as H.
    assert (Hvf : valid_time final) by (rewrite Hk; exact Hv).
    apply plus_cycle_Ok in H as [-> _]; [|exact Hvf]. split.
    + exists final. rewrite Hge. auto.
    + exists (S k). rewrite Hk, shift_days_shift. f_equal. lia.
Qed.

Lemma predict_raises fuel start cycle_length today e :
  valid_time start ->
  predict_next_period_start fuel start cycle_length today = Some (Raise e) ->
  e = OverflowError.
Proof.
  unfold predict_next_period_start. intros Hv H.
  destruct (next_start_loop fuel start today cycle_length) as [[final|e']|] eqn:Hloop;
    try discriminate H.
  - destruct (next_start_loop_sound _ _ _ _ _ Hv Hloop) as [_ [k Hk]].
    destruct (datetime_ge final today); [discriminate H|].
    injection H as H. apply (plus_cycle_Raise final cycle_length); [|exact H].
    rewrite Hk. exact Hv.
  - injection H as <-. exact (next_start_loop_raises _ _ _ _ _ Hv Hloop).
Qed.

Lemma predict_total start cycle_length today :
  valid_time start -> cycle_length <> 0 ->
  exists r, predict_next_period_start (enough_fuel start) start cycle_length today = Some r.
Proof.
  intros Hv Hnz. unfold predict_next_period_start.
  assert (Hloop : exists r, next_start_loop (enough_fuel start) start today cycle_length = Some r).
  { destruct (Z.lt_trichotomy cycle_length 0) as [Hneg|[H0|Hpos]]; [|contradiction|].
    - apply next_start_loop_total_neg; [exact Hneg|exact Hv|]. unfold enough_fuel. lia.
    - apply next_start_loop_total_pos; [exact Hpos|exact Hv|]. unfold enough_fuel. lia. }
  destruct Hloop as [[final|e] ->]; eauto.
Qed.

Lemma predict_in_range fuel start cycle_length today r :
  valid_datetime start -> 0 < cycle_length ->
  dt_ordinal start + cycle_length <= MAXORDINAL ->
  dt_ordinal today + cycle_length <= MAXORDINAL ->
  predict_next_period_start fuel start cycle_length today = Some r ->
  exists predicted, r = Ok predicted.
Proof.
  intros [Hord Hv] Hpos Hstart Htoday. unfold predict_next_period_start. intros H.
  destruct (next_start_loop fuel start today cycle_length) as [r0|] eqn:Hloop; [|discriminate H].
  destruct (next_start_loop_in_range _ _ _ Hpos Htoday _ _ Hv (proj1 Hord) Hstart Hloop)
    as [final [-> [Hvf [Hlo Hhi]]]].
  destruct (datetime_ge final today).
  - injection H as <-. eauto.
  - rewrite (plus_cycle_in_range _ _ Hvf Hlo Hpos Hhi) in H. injection H as <-. eauto.
Qed.

Lemma predict_returns cycle_start cycle_length reference_date :
  valid_datetime cycle_start -> 0 < cycle_length ->
  dt_ordinal cycle_start + cycle_length <= MAXORDINAL ->
  dt_ordinal reference_date + cycle_length <= MAXORDINAL ->
  exists predicted, forall extra,
    predict_next_period_start (enough_fuel cycle_start + extra) cycle_start
      cycle_length reference_date = Some (Ok predicted).
Proof.
  intros Hvalid Hpos Hstart Href.
  destruct (predict_total cycle_start cycle_length reference_date
              (valid_datetime_time _ Hvalid)) as [r Hr]; [lia|].
  destruct (predict_in_range _ _ _ _ _ Hvalid Hpos Hstart Href Hr) as [predicted ->].
  exists predicted. intros extra. apply predict_more. exact Hr.
Qed.

(** *** The specification's loop *)

Lemma spec_loop_deterministic cycle_length reference_date next_start final1 :
  spec_loop cycle_length reference_date next_start final1 ->
  forall final2,
    spec_loop cycle_length reference_date next_start final2 -> final1 = final2.
Proof.
  induction 1 as [ns Hexit|ns final Hle Hrest IH]; intros final2 H2.
  - inversion H2; subst; [reflexivity|congruence].
  - inversion H2; subst; [congruence|]. apply IH. assumption.
Qed.

Lemma spec_predict_deterministic cycle_start cycle_length reference_date p1 p2 :
  spec_predict cycle_start cycle_length reference_date p1 ->
  spec_predict cycle_start cycle_length reference_date p2 -> p1 = p2.
Proof.
  intros [n1 [H1 ->]] [n2 [H2 ->]].
  rewrite (spec_loop_deterministic _ _ _ _ H1 _ H2). reflexivity.
Qed.

(** On leaving the loop one more cycle would pass the reference date, and
    unless no turn was taken [next_start] itself does not. *)
Lemma spec_loop_bounds cycle_length reference_date next_start final :
  spec_loop cycle_length reference_date next_start final ->
  datetime_le (shift_days final cycle_length) reference_date = false /\
  (final = next_start \/ datetime_le final reference_date = true).
Proof.
  induction 1 as [ns Hexit|ns final Hle Hrest [IH1 IH2]].
  - auto.
  - split; [exact IH1|]. right. destruct IH2 as [->|H]; assumption.
Qed.

(** For a positive cycle length the prediction is the earliest date of the
    progression [cycle_start + k * cycle_length] that is not before the
    reference date. *)
Theorem spec_predict_earliest cycle_start cycle_length reference_date predicted :
  0 < cycle_length ->
  spec_predict cycle_start cycle_length reference_date predicted ->
  (exists k : nat, predicted = shift_days cycle_start (Z.of_nat k * cycle_length)) ->
  datetime_ge predicted reference_date = true /\
  forall j : nat,
    datetime_ge (shift_days cycle_start (Z.of_nat j * cycle_length)) reference_date = true ->
    datetime_le predicted (shift_days cycle_start (Z.of_nat j * cycle_length)) = true.
Proof.
  intros Hpos [final [Hloop Hp]] [k Hk].
  destruct (spec_loop_bounds _ _ _ _ Hloop) as [Hnext Hfinal].
  apply datetime_le_false_iff in Hnext. cbn [shift_days dt_ordinal dt_micro] in Hnext.
  destruct (datetime_ge final reference_date) eqn:Hge.
  - subst predicted. split; [exact Hge|]. intros j Hj.
    apply datetime_ge_iff in Hge. apply datetime_ge_iff in Hj.
    apply datetime_le_iff. cbn [shift_days dt_ordinal dt_micro] in *.
    destruct Hfinal as [->|Hle].
    + cbn [shift_days dt_ordinal dt_micro]. nia.
    + apply datetime_le_iff in Hle. lia.
  - apply datetime_ge_false_iff in Hge.
    assert (Hf : final = shift_days cycle_start (Z.of_nat k * cycle_length - cycle_length)).
    { rewrite Hp in Hk. destruct final as [fo fm].
      unfold shift_days in *. cbn [dt_ordinal dt_micro] in *.
      injection Hk as Ho Hm. f_equal; lia. }
    subst predicted. split.
    + apply datetime_ge_iff. cbn [shift_days dt_ordinal dt_micro]. lia.
    + intros j Hj. apply datetime_ge_iff in Hj. apply datetime_le_iff.
      rewrite Hf in *. cbn [shift_days dt_ordinal dt_micro] in *.
      assert (Hlt : Z.of_nat k * cycle_length - cycle_length < Z.of_nat j * cycle_length) by lia.
      assert (Hkj : Z.of_nat k <= Z.of_nat j) by nia.
      assert (Z.of_nat k * cycle_length <= Z.of_nat j * cycle_length)
        by (apply Z.mul_le_mono_nonneg_r; lia).
      lia.
Qed.

(** *** The prediction of [calculate_cycle] *)

(** C1, as the code has it: whenever lines 68-71 return, the value is the
    one the two-branch rule of the specification gives and has the form
    [cycle_start + k * cycle_length] for a natural number [k]; they do return
    when [cycle_length] is positive and neither [cycle_start + cycle_length]
    nor [reference_date + cycle_length] passes 9999-12-31, the last day a
    [datetime] holds; then a reference date equal to the cycle start is
    returned itself; from 2024-01-01 with 28 days and the reference date
    2024-01-15 the prediction is 2024-01-29; and with any cycle length other
    than zero the run ends, with a date or with [OverflowError]. *)
Theorem predict_next_period_start_semantics :
  (forall fuel cycle_start cycle_length reference_date predicted,
      valid_time cycle_start ->
      predict_next_period_start fuel cycle_start cycle_length reference_date
        = Some (Ok predicted) ->
      spec_predict cycle_start cycle_length reference_date predicted /\
      exists k : nat, predicted = shift_days cycle_start (Z.of_nat k * cycle_length)) /\
  (forall cycle_start cycle_length reference_date,
      valid_datetime cycle_start -> 0 < cycle_length ->
      dt_ordinal cycle_start + cycle_length <= MAXORDINAL ->
      dt_ordinal reference_date + cycle_length <= MAXORDINAL ->
      exists predicted, forall extra,
        predict_next_period_start (enough_fuel cycle_start + extra) cycle_start
          cycle_length reference_date = Some (Ok predicted)) /\
  (forall fuel cycle_start cycle_length,
      valid_datetime cycle_start -> 0 < cycle_length ->
      dt_ordinal cycle_start + cycle_length <= MAXORDINAL ->
      predict_next_period_start (S fuel) cycle_start cycle_length cycle_start
        = Some (Ok cycle_start)) /\
  (forall fuel,
      predict_next_period_start (S fuel) (midnight 2024 1 1) 28 (midnight 2024 1 15)
        = Some (Ok (midnight 2024 1 29))) /\
  (forall cycle_start cycle_length reference_date,
      valid_time cycle_start -> cycle_length <> 0 ->
      exists r,
        predict_next_period_start (enough_fuel cycle_start) cycle_start
          cycle_length reference_date = Some r /\
        forall e, r = Raise e -> e = OverflowError).
Proof.
  split; [|split; [|split; [|split]]].
  - intros fuel cycle_start cycle_length reference_date predicted Hv H.
    exact (predict_sound _ _ _ _ _ Hv H).
  - exact predict_returns.
  - intros fuel cycle_start cycle_length [Hord Hv] Hpos Hstart.
    unfold predict_next_period_start. rewrite next_start_loop_S.
    rewrite (plus_cycle_in_range _ _ Hv (proj1 Hord) Hpos Hstart).
    replace (datetime_le (shift_days cycle_start cycle_length) cycle_start) with false.
    + rewrite datetime_ge_refl. reflexivity.
    + symmetry. apply datetime_le_false_iff. cbn [shift_days dt_ordinal dt_micro]. lia.
  - intros fuel. change (S fuel) with (1 + fuel)%nat. apply predict_more.
    vm_compute. reflexivity.
  - intros cycle_start cycle_length reference_date Hv Hnz.
    destruct (predict_total cycle_start cycle_length reference_date Hv Hnz) as [r Hr].
    exists r. split; [exact Hr|]. intros e ->.
    exact (predict_raises _ _ _ _ _ Hv Hr).
Qed.

Lemma predict_next_period_start_semantics_witness :
  spec_predict (midnight 2024 1 1) 28 (midnight 2024 1 15) (midnight 2024 1 29) /\
  exists k : nat, midnight 2024 1 29 = shift_days (midnight 2024 1 1) (Z.of_nat k * 28).
Proof.
  apply (proj1 predict_next_period_start_semantics 1%nat
           (midnight 2024 1 1) 28 (midnight 2024 1 15) (midnight 2024 1 29)).
  - vm_compute. split; [discriminate 1 | reflexivity].
  - vm_compute. reflexivity.
Defined.

(** C1 as stated fails: a cycle length of 4000000 days is positive, yet with
    the reference date equal to the cycle start the very first sum
    [cycle_start + timedelta(days=4000000)] passes 9999-12-31 and the code
    raises [OverflowError]; no amount of fuel gives the cycle start back. *)
Lemma predict_same_day_overflows :
  valid_datetime (midnight 2024 1 1) /\ 0 < 4000000 /\
  forall fuel,
    predict_next_period_start fuel (midnight 2024 1 1) 4000000 (midnight 2024 1 1)
      <> Some (Ok (midnight 2024 1 1)).
Proof.
  split; [|split].
  - vm_compute. repeat split; discriminate 1.
  - lia.
  - intros [|fuel].
    + discriminate 1.
    + unfold predict_next_period_start. rewrite next_start_loop_S.
      replace (plus_cycle (midnight 2024 1 1) 4000000) with (@Raise datetime OverflowError)
        by (vm_compute; reflexivity).
      discriminate 1.
Qed.


(** ** [day_in_cycle] *)

Lemma day_in_cycle_eq cycle_start cycle_length target_date :
  cycle_length <> 0 ->
  day_in_cycle cycle_start cycle_length target_date =
    Ok (((abs_micro target_date - abs_micro cycle_start) / US_PER_DAY) mod cycle_length).
Proof.
  intros Hnz. unfold day_in_cycle, py_mod.
  destruct (Z.eqb_spec cycle_length 0) as [H0|_]; [contradiction|].
  cbn [bind]. rewrite datetime_sub_days. reflexivity.
Qed.

Lemma day_in_cycle_zero cycle_start target_date :
  day_in_cycle cycle_start 0 target_date = Raise ZeroDivisionError.
Proof. reflexivity. Qed.

(** Adding whole days moves a datetime by that many days on the
    microsecond line, whatever its time of day. *)
Lemma plus_cycle_abs_micro d n d' :
  plus_cycle d n = Ok d' -> abs_micro d' = abs_micro d + n * US_PER_DAY.
Proof.
  unfold plus_cycle, timedelta_days.
  destruct (Z.abs n <=? MAX_DELTA_DAYS); [|discriminate].
  cbn [bind]. rewrite timedelta_of_whole_days.
  unfold datetime_add. cbn [td_days td_seconds td_microseconds].
  destruct (_ && _); [|discriminate]. intros [= <-].
  unfold abs_micro. cbn [dt_ordinal dt_micro].
  replace (dt_micro d + 0 * 1000000 + 0) with (dt_micro d) by lia.
  pose proof (Z.div_mod (dt_micro d) US_PER_DAY) as Hdm.
  assert (HD : US_PER_DAY <> 0) by (unfold US_PER_DAY; lia).
  specialize (Hdm HD). lia.
Qed.

(** C2: for a positive cycle length [day_in_cycle] returns the whole-day
    difference between the reference date and the cycle start, reduced
    modulo the cycle length; the result lies in [0, cycle_length), also for a
    reference date before the cycle start.  The whole-day difference is the
    number [days] with
    [days * 1 day <= reference_date - cycle_start < (days + 1) * 1 day]. *)
Theorem day_in_cycle_modulo cycle_start cycle_length reference_date :
  0 < cycle_length ->
  exists r days,
    day_in_cycle cycle_start cycle_length reference_date = Ok r /\
    0 <= r < cycle_length /\
    days * US_PER_DAY <= abs_micro reference_date - abs_micro cycle_start
      < (days + 1) * US_PER_DAY /\
    r = days mod cycle_length /\
    exists q, days = q * cycle_length + r.
Proof.
  intros Hpos.
  set (days := (abs_micro reference_date - abs_micro cycle_start) / US_PER_DAY).
  exists (days mod cycle_length), days.
  split; [apply day_in_cycle_eq; lia|].
  split; [apply Z.mod_pos_bound; exact Hpos|].
  split.
  - assert (HD : 0 < US_PER_DAY) by (unfold US_PER_DAY; lia).
    pose proof (Z.div_mod (abs_micro reference_date - abs_micro cycle_start) US_PER_DAY) as Hdm.
    pose proof (Z.mod_pos_bound (abs_micro reference_date - abs_micro cycle_start) US_PER_DAY HD).
    fold days in Hdm. lia.
  - split; [reflexivity|].
    exists (days / cycle_length).
    pose proof (Z.div_mod days cycle_length). lia.
Qed.

Lemma day_in_cycle_modulo_witness :
  exists r days,
    day_in_cycle (midnight 2024 1 15) 28 (midnight 2024 1 1) = Ok r /\
    0 <= r < 28 /\
    days * US_PER_DAY <= abs_micro (midnight 2024 1 1) - abs_micro (midnight 2024 1 15)
      < (days + 1) * US_PER_DAY /\
    r = days mod 28 /\
    exists q, days = q * 28 + r.
Proof.
  apply (day_in_cycle_modulo (midnight 2024 1 15) 28 (midnight 2024 1 1)).
  reflexivity.
Defined.

(** At day granularity: between two midnights the index is the difference
    of the day numbers, modulo the cycle length. *)
Lemma day_in_cycle_midnights cycle_length y1 m1 d1 y2 m2 d2 :
  cycle_length <> 0 ->
  day_in_cycle (midnight y1 m1 d1) cycle_length (midnight y2 m2 d2) =
    Ok ((ymd2ord y2 m2 d2 - ymd2ord y1 m1 d1) mod cycle_length).
Proof.
  intros Hnz. rewrite day_in_cycle_eq by exact Hnz. unfold abs_micro, midnight.
  cbn [dt_ordinal dt_micro]. do 2 f_equal.
  replace (ymd2ord y2 m2 d2 * US_PER_DAY + 0 - (ymd2ord y1 m1 d1 * US_PER_DAY + 0))
    with ((ymd2ord y2 m2 d2 - ymd2ord y1 m1 d1) * US_PER_DAY) by ring.
  apply Z.div_mul. unfold US_PER_DAY. lia.
Qed.

(** C8: [day_in_cycle] is periodic in its target date with period
    [cycle_length]: on the start date itself and 28 days later the index of
    a 28-day cycle is 0, and adding one cycle length to any target date
    leaves the index unchanged. *)
Theorem day_in_cycle_periodic :
  (forall start, day_in_cycle start 28 start = Ok 0) /\
  (forall start later,
      plus_cycle start 28 = Ok later -> day_in_cycle start 28 later = Ok 0) /\
  (forall start cycle_length target later,
      plus_cycle target cycle_length = Ok later ->
      day_in_cycle start cycle_length later = day_in_cycle start cycle_length target).
Proof.
  assert (HD : US_PER_DAY <> 0) by (unfold US_PER_DAY; lia).
  split; [|split].
  - intros start. rewrite day_in_cycle_eq by lia.
    rewrite Z.sub_diag. reflexivity.
  - intros start later Hplus. rewrite day_in_cycle_eq by lia.
    rewrite (plus_cycle_abs_micro _ _ _ Hplus).
    replace (abs_micro start + 28 * US_PER_DAY - abs_micro start) with (28 * US_PER_DAY) by ring.
    rewrite Z.div_mul by exact HD. reflexivity.
  - intros start cycle_length target later Hplus.
    destruct (Z.eq_dec cycle_length 0) as [->|Hnz]; [reflexivity|].
    rewrite !day_in_cycle_eq by exact Hnz.
    rewrite (plus_cycle_abs_micro _ _ _ Hplus).
    replace (abs_micro target + cycle_length * US_PER_DAY - abs_micro start)
      with (abs_micro target - abs_micro start + cycle_length * US_PER_DAY) by ring.
    rewrite Z.div_add by exact HD.
    set (days := (abs_micro target - abs_micro start) / US_PER_DAY).
    rewrite <- (Z.mod_add days 1 cycle_length Hnz), Z.mul_1_l. reflexivity.
Qed.

Lemma day_in_cycle_periodic_witness :
  plus_cycle (midnight 2024 1 1) 28 = Ok (midnight 2024 1 29) /\
  day_in_cycle (midnight 2024 1 1) 28 (midnight 2024 1 29) = Ok 0.
Proof.
  split; [reflexivity|].
  apply (proj1 (proj2 day_in_cycle_periodic) (midnight 2024 1 1) (midnight 2024 1 29)).
  reflexivity.
Defined.

(** ** [phase_for_day] *)

(** The scan returns the key of the first range that contains the day. *)
Lemma phase_scan_first before range after day_index :
  Forall (fun r => ~ covers r day_index) before ->
  covers range day_index ->
  phase_scan (before ++ range :: after)%list day_index = range_key range.
Proof.
  intros Hbefore Hrange.
  induction Hbefore as [|[[[s e] k] l] before Hr _ IH]; simpl.
  - destruct range as [[[s e] k] l]. simpl in *.
    destruct (Z.leb_spec s day_index); [|lia].
    destruct (Z.leb_spec day_index e); [|lia]. reflexivity.
  - simpl in Hr.
    destruct (Z.leb_spec s day_index); [|exact IH].
    destruct (Z.leb_spec day_index e); [lia|exact IH].
Qed.

(** With no range containing the day, the scan falls through. *)
Lemma phase_scan_none table day_index :
  Forall (fun r => ~ covers r day_index) table ->
  phase_scan table day_index = "luteal".
Proof.
  induction 1 as [|[[[s e] k] l] table Hr _ IH]; simpl; [reflexivity|].
  simpl in Hr.
  destruct (Z.leb_spec s day_index); [|exact IH].
  destruct (Z.leb_spec day_index e); [lia|exact IH].
Qed.

Ltac scan_phases :=
  unfold phase_for_day, PHASES, phase_scan;
  repeat match goal with
         | |- context [(?a <=? ?b)] => destruct (Z.leb_spec a b); cbn [andb]
         end;
  first [reflexivity | lia].

(** C3: [phase_for_day] scans the four ranges in table order and returns
    the key of the first range that contains the day index: 0-5 is period,
    6-13 follicular, 14-15 ovulation, 16-27 luteal, and every index from 28
    on, which no range contains, is luteal by the fallback. *)
Theorem phase_for_day_table :
  (forall day_index before range after,
      PHASES = (before ++ range :: after)%list ->
      Forall (fun r => ~ covers r day_index) before ->
      covers range day_index ->
      phase_for_day day_index = range_key range) /\
  (forall day_index, 0 <= day_index <= 5 -> phase_for_day day_index = "period") /\
  (forall day_index, 6 <= day_index <= 13 -> phase_for_day day_index = "follicular") /\
  (forall day_index, 14 <= day_index <= 15 -> phase_for_day day_index = "ovulation") /\
  (forall day_index, 16 <= day_index <= 27 -> phase_for_day day_index = "luteal") /\
  (forall day_index,
      28 <= day_index ->
      Forall (fun r => ~ covers r day_index) PHASES /\ phase_for_day day_index = "luteal").
Proof.
  split; [|split; [|split; [|split; [|split]]]];
    try (intros day_index H; scan_phases).
  - intros day_index before range after Htable Hbefore Hrange.
    unfold phase_for_day. rewrite Htable. apply phase_scan_first; assumption.
  - intros day_index H. split; [|scan_phases].
    unfold PHASES. repeat constructor; simpl; lia.
Qed.

Lemma phase_for_day_table_witness :
  phase_for_day 14 = "ovulation" /\ phase_for_day 28 = "luteal".
Proof.
  split.
  - apply (proj1 (proj2 (proj2 (proj2 phase_for_day_table))) 14). lia.
  - apply (proj2 (proj2 (proj2 (proj2 (proj2 phase_for_day_table)))) 28). lia.
Defined.

Lemma phase_for_day_in_keys day_index : In (phase_for_day day_index) PHASE_KEYS.
Proof.
  unfold phase_for_day, PHASES, phase_scan, PHASE_KEYS.
  repeat match goal with
         | |- context [(?a <=? ?b)] => destruct (a <=? b); cbn [andb]
         end; simpl; auto.
Qed.

(** C9: [phase_for_day] answers on every integer with one of the four phase
    keys, and on every negative day index, which no range of the table
    contains, with the fallback luteal. *)
Theorem phase_for_day_total :
  (forall day_index,
      In (phase_for_day day_index) ["period"; "follicular"; "ovulation"; "luteal"]) /\
  (forall day_index,
      day_index < 0 ->
      Forall (fun r => ~ covers r day_index) PHASES /\ phase_for_day day_index = "luteal").
Proof.
  split.
  - intros day_index. exact (phase_for_day_in_keys day_index).
  - intros day_index Hneg. split; [|scan_phases].
    unfold PHASES. repeat constructor; simpl; lia.
Qed.

Lemma phase_for_day_total_witness : phase_for_day (-3) = "luteal".
Proof.
  apply (proj2 phase_for_day_total (-3)). lia.
Defined.

(** ** [calculate_cycle] *)

Lemma strptime_ymd_Raise date_str e :
  strptime_ymd date_str = Raise e -> e = ValueError.
Proof.
  unfold strptime_ymd.
  destruct (match_ymd _) as [[[[y m] dd] [|c l]]|]; try (intros [= <-]; reflexivity).
  destruct (_ && _); [discriminate|]. intros [= <-]. reflexivity.
Qed.

Lemma parse_date_Ok date_str d :
  parse_date date_str = Ok d -> dt_micro d = 0.
Proof.
  unfold parse_date, strptime_ymd.
  destruct (match_ymd _) as [[[[y m] dd] [|c l]]|]; try discriminate.
  destruct (_ && _); [|discriminate]. intros [= <-]. reflexivity.
Qed.

Lemma parse_date_valid_time date_str d :
  parse_date date_str = Ok d -> valid_time d.
Proof.
  intros H. unfold valid_time. rewrite (parse_date_Ok _ _ H). unfold US_PER_DAY. lia.
Qed.

(** A date that does not parse is the client's error. *)
Lemma parse_date_Raise date_str e :
  parse_date date_str = Raise e -> e = HTTPException 400 "Date must be YYYY-MM-DD".
Proof.
  unfold parse_date. destruct (strptime_ymd date_str) as [d|e'] eqn:H; [discriminate|].
  rewrite (strptime_ymd_Raise _ _ H). intros [= <-]. reflexivity.
Qed.

Lemma day_in_cycle_Raise cycle_start cycle_length target_date e :
  day_in_cycle cycle_start cycle_length target_date = Raise e ->
  cycle_length = 0 /\ e = ZeroDivisionError.
Proof.
  unfold day_in_cycle, py_mod. destruct (Z.eqb_spec cycle_length 0) as [->|Hnz].
  - intros [= <-]. auto.
  - discriminate.
Qed.

(** The handler always answers: a zero cycle length stops it before the
    loop, and with any other the loop ends. *)
Theorem calculate_cycle_total data today :
  exists fuel r, calculate_cycle fuel data today = Some r.
Proof.
  unfold calculate_cycle.
  destruct (parse_date (cycle_start data)) as [start|e] eqn:Hparse; [|exists O; eauto].
  destruct (day_in_cycle start (cycle_length data) today) as [idx|e] eqn:Hidx; [|exists O; eauto].
  assert (Hnz : cycle_length data <> 0).
  { intros H0. rewrite H0 in Hidx. discriminate Hidx. }
  destruct (predict_total start (cycle_length data) today
              (parse_date_valid_time _ _ Hparse) Hnz) as [[p|e] Hp];
    exists (enough_fuel start); rewrite Hp; eauto.
Qed.

(** The only client error of the handler is the one for the date: whatever
    the cycle length, it is never refused. *)
Theorem calculate_cycle_client_error fuel data today status detail :
  calculate_cycle fuel data today = Some (Raise (HTTPException status detail)) ->
  parse_date (cycle_start data) = Raise (HTTPException 400 "Date must be YYYY-MM-DD").
Proof.
  unfold calculate_cycle.
  destruct (parse_date (cycle_start data)) as [start|e] eqn:Hparse.
  - destruct (day_in_cycle start (cycle_length data) today) as [idx|e] eqn:Hidx.
    + destruct (predict_next_period_start fuel start (cycle_length data) today)
        as [[p|e]|] eqn:Hp; try discriminate.
      intros [= ->].
      pose proof (predict_raises _ _ _ _ _ (parse_date_valid_time _ _ Hparse) Hp).
      discriminate.
    + intros [= ->]. apply day_in_cycle_Raise in Hidx as [_ H]. discriminate H.
  - intros _. rewrite (parse_date_Raise _ _ Hparse). reflexivity.
Qed.

(** With a date that parses, a zero cycle length reaches the modulo of
    [day_in_cycle]. *)
Lemma calculate_cycle_zero fuel data today start :
  parse_date (cycle_start data) = Ok start -> cycle_length data = 0 ->
  calculate_cycle fuel data today = Some (Raise ZeroDivisionError).
Proof.
  intros Hparse H0. unfold calculate_cycle. rewrite Hparse, H0. reflexivity.
Qed.

(** C4 does not hold of the code: the request 2024-01-01 with cycle length
    0 is not refused with a validation error; [day_in_cycle] is evaluated and
    its modulo raises [ZeroDivisionError], whatever the clock says. *)
Theorem calculate_cycle_zero_length_unchecked :
  forall fuel partner today,
    calculate_cycle fuel
      {| partner_name := partner; cycle_start := "2024-01-01"; cycle_length := 0 |} today
    = Some (Raise ZeroDivisionError).
Proof.
  intros fuel partner today. apply (calculate_cycle_zero _ _ _ (midnight 2024 1 1)).
  - vm_compute. reflexivity.
  - reflexivity.
Qed.

(** A negative cycle length is not refused either: with the cycle start
    ahead of the clock the handler answers with a negative day index. *)
Example calculate_cycle_negative_length :
  calculate_cycle 1
    {| partner_name := None; cycle_start := "2024-02-01"; cycle_length := -5 |}
    (midnight 2024 1 15)
  = Some (Ok {| resp_today := "2024-01-15";
                resp_day_in_cycle := -2;
                resp_phase := "luteal";
                resp_next_period_start := "2024-02-01";
                resp_cycle_length := -5 |}).
Proof. vm_compute. reflexivity. Qed.

(** The two examples of the specification, through the handler. *)
Example calculate_cycle_mid_cycle :
  calculate_cycle 1
    {| partner_name := None; cycle_start := "2024-01-01"; cycle_length := 28 |}
    (midnight 2024 1 15)
  = Some (Ok {| resp_today := "2024-01-15";
                resp_day_in_cycle := 14;
                resp_phase := "ovulation";
                resp_next_period_start := "2024-01-29";
                resp_cycle_length := 28 |}).
Proof. vm_compute. reflexivity. Qed.

Example calculate_cycle_on_start_day :
  calculate_cycle 1
    {| partner_name := None; cycle_start := "2024-01-01"; cycle_length := 28 |}
    (midnight 2024 1 1)
  = Some (Ok {| resp_today := "2024-01-01";
                resp_day_in_cycle := 0;
                resp_phase := "period";
                resp_next_period_start := "2024-01-01";
                resp_cycle_length := 28 |}).
Proof. vm_compute. reflexivity. Qed.

(** Later on the start day the clock is already past the cycle start, and
    the prediction is the next cycle. *)
Example calculate_cycle_on_start_day_at_ten :
  calculate_cycle 1
    {| partner_name := None; cycle_start := "2024-01-01"; cycle_length := 28 |}
    {| dt_ordinal := ymd2ord 2024 1 1; dt_micro := 36000000000 |}
  = Some (Ok {| resp_today := "2024-01-01";
                resp_day_in_cycle := 0;
                resp_phase := "period";
                resp_next_period_start := "2024-01-29";
                resp_cycle_length := 28 |}).
Proof. vm_compute. reflexivity. Qed.

Example calculate_cycle_huge_length :
  calculate_cycle 1
    {| partner_name := None; cycle_start := "2024-01-01"; cycle_length := 4000000 |}
    (midnight 2024 1 1)
  = Some (Raise OverflowError).
Proof. vm_compute. reflexivity. Qed.

(** ** [parse_date] *)

Lemma digit_in_range lo hi c v : digit_in lo hi c = Some v -> lo <= v <= hi.
Proof.
  unfold digit_in.
  destruct (Z.leb_spec lo (Z.of_N (N_of_ascii c) - 48)); [|discriminate].
  destruct (Z.leb_spec (Z.of_N (N_of_ascii c) - 48) hi); [|discriminate].
  cbn [andb]. intros [= <-]. lia.
Qed.

Lemma two_chars_In p1 p2 l v rest :
  In (v, rest) (two_chars p1 p2 l) ->
  exists c1 c2 a b,
    l = c1 :: c2 :: rest /\ p1 c1 = Some a /\ p2 c2 = Some b /\ v = 10 * a + b.
Proof.
  unfold two_chars. destruct l as [|c1 [|c2 l']]; try contradiction.
  destruct (p1 c1) as [a|] eqn:H1; [|contradiction].
  destruct (p2 c2) as [b|] eqn:H2; [|contradiction].
  intros [[= <- <-]|[]]. exists c1, c2, a, b. auto.
Qed.

Lemma one_char_In p l v rest :
  In (v, rest) (one_char p l) -> exists c, l = c :: rest /\ p c = Some v.
Proof.
  unfold one_char. destruct l as [|c l']; [contradiction|].
  destruct (p c) as [a|] eqn:H; [|contradiction].
  intros [[= <- <-]|[]]. exists c. auto.
Qed.

Lemma first_match_Some {A B : Type} (alts : list A) (k : A -> option B) b :
  first_match alts k = Some b -> exists a, In a alts /\ k a = Some b.
Proof.
  induction alts as [|a alts IH]; simpl; [discriminate|].
  destruct (k a) as [b'|] eqn:Hk.
  - intros [= <-]. exists a. auto.
  - intros H. destruct (IH H) as [a' [Hin Ha']]. exists a'. auto.
Qed.

Lemma month_alts_range l m rest : In (m, rest) (month_alts l) -> 1 <= m <= 12.
Proof.
  unfold month_alts. rewrite !in_app_iff. intros [H|[H|H]].
  - apply two_chars_In in H as (c1 & c2 & a & b & _ & Ha & Hb & ->).
    apply digit_in_range in Ha, Hb. lia.
  - apply two_chars_In in H as (c1 & c2 & a & b & _ & Ha & Hb & ->).
    apply digit_in_range in Ha, Hb. lia.
  - apply one_char_In in H as (c & _ & Hc). apply digit_in_range in Hc. lia.
Qed.

Lemma match_ymd_month l y m d rest :
  match_ymd l = Some (y, m, d, rest) -> 1 <= m <= 12.
Proof.
  unfold match_ymd. intros H.
  apply first_match_Some in H as [[y' l1] [_ H]].
  destruct (dash l1) as [l2|]; [|discriminate H].
  apply first_match_Some in H as [[m' l3] [Hm H]].
  destruct (dash l3) as [l4|]; [|discriminate H].
  apply first_match_Some in H as [[d' l5] [_ H]].
  injection H as _ <- _ _. exact (month_alts_range _ _ _ Hm).
Qed.

(** Within a year: the days before a month and the days of the month stay
    within the length of the year. *)
Lemma month_table m (leap : bool) :
  1 <= m <= 12 ->
  let before :=
    sum_Z (firstn (Z.to_nat (m - 1)) DAYS_IN_MONTH)
    + (if (2 <? m) && leap then 1 else 0) in
  let len := if (m =? 2) && leap then 29 else month_length m in
  0 <= before /\ before + len <= (if leap then 366 else 365).
Proof.
  intros Hm.
  assert (Hcases : m = 1 \/ m = 2 \/ m = 3 \/ m = 4 \/ m = 5 \/ m = 6 \/
                   m = 7 \/ m = 8 \/ m = 9 \/ m = 10 \/ m = 11 \/ m = 12) by lia.
  destruct leap; repeat (destruct Hcases as [->|Hcases]); try subst m;
    vm_compute; split; discriminate 1.
Qed.

(** The day numbers of the years 1 to 9999 are the ordinals 1 to
    [MAXORDINAL]. *)
Lemma ymd2ord_range y m d :
  1 <= y <= 9999 -> 1 <= m <= 12 -> 1 <= d <= days_in_month y m ->
  1 <= ymd2ord y m d <= MAXORDINAL.
Proof.
  intros Hy Hm Hd.
  pose proof (month_table m (is_leap y) Hm) as [Hlo Hhi].
  unfold ymd2ord, days_before_year, days_before_month, MAXORDINAL.
  unfold days_in_month in Hd.
  set (before := sum_Z (firstn (Z.to_nat (m - 1)) DAYS_IN_MONTH)
                 + (if (2 <? m) && is_leap y then 1 else 0)) in *.
  set (len := if (m =? 2) && is_leap y then 29 else month_length m) in *.
  clearbody before len.
  assert (Hleap : is_leap y = true -> y mod 4 = 0).
  { unfold is_leap. intros H. apply andb_prop in H as [H _].
    apply Z.eqb_eq in H. exact H. }
  destruct (Z.eq_dec y 9999) as [->|Hne].
  - change (is_leap 9999) with false in Hhi. cbv iota in Hhi.
    change ((9999 - 1) * 365 + (9999 - 1) / 4 - (9999 - 1) / 100 + (9999 - 1) / 400)
      with 3651694.
    lia.
  - destruct (is_leap y); [specialize (Hleap eq_refl)|]; cbv iota in Hhi;
      Z.to_euclidean_division_equations; lia.
Qed.

(** A date that parses is a datetime of the supported range, at midnight. *)
Theorem parse_date_valid date_str d :
  parse_date date_str = Ok d -> valid_datetime d /\ dt_micro d = 0.
Proof.
  unfold parse_date, strptime_ymd.
  destruct (match_ymd _) as [[[[y m] dd] [|c l]]|] eqn:Hmatch; try discriminate.
  apply match_ymd_month in Hmatch.
  destruct (Z.leb_spec 1 y); [|discriminate].
  destruct (Z.leb_spec y 9999); [|discriminate].
  destruct (Z.leb_spec 1 dd); [|discriminate].
  destruct (Z.leb_spec dd (days_in_month y m)); [|discriminate].
  cbn [andb]. intros [= <-]. unfold valid_datetime. cbn [dt_ordinal dt_micro].
  split; [|reflexivity]. split; [apply ymd2ord_range; lia|].
  unfold US_PER_DAY. lia.
Qed.

(** X4: a request with a date that parses and a positive cycle length is
    answered, as long as no sum passes the last representable day: the day
    index lies within the cycle, the phase is the one of that day index and
    one of the four keys, and the cycle length is returned as sent. *)
Theorem calculate_cycle_answers data today start :
  parse_date (cycle_start data) = Ok start ->
  0 < cycle_length data ->
  dt_ordinal start + cycle_length data <= MAXORDINAL ->
  dt_ordinal today + cycle_length data <= MAXORDINAL ->
  exists resp,
    (forall extra,
        calculate_cycle (enough_fuel start + extra) data today = Some (Ok resp)) /\
    0 <= resp_day_in_cycle resp < cycle_length data /\
    resp_phase resp = phase_for_day (resp_day_in_cycle resp) /\
    In (resp_phase resp) PHASE_KEYS /\
    resp_cycle_length resp = cycle_length data.
Proof.
  intros Hparse Hpos Hstart Htoday.
  destruct (parse_date_valid _ _ Hparse) as [Hvalid _].
  destruct (predict_returns start (cycle_length data) today Hvalid Hpos Hstart Htoday)
    as [predicted Hpred].
  set (idx := ((abs_micro today - abs_micro start) / US_PER_DAY) mod cycle_length data).
  exists {| resp_today := strftime_ymd today;
            resp_day_in_cycle := idx;
            resp_phase := phase_for_day idx;
            resp_next_period_start := strftime_ymd predicted;
            resp_cycle_length := cycle_length data |}.
  cbn [resp_day_in_cycle resp_phase resp_cycle_length].
  split; [|split; [|split; [|split]]].
  - intros extra. unfold calculate_cycle.
    rewrite Hparse, day_in_cycle_eq by lia. rewrite Hpred. reflexivity.
  - apply Z.mod_pos_bound. exact Hpos.
  - reflexivity.
  - apply phase_for_day_in_keys.
  - reflexivity.
Qed.

(** ** [get_ideas] *)

Lemma pop_internal_lookup d :
  pop_internal d !! "_id" = None /\
  pop_internal d !! "created_at" = None /\
  pop_internal d !! "updated_at" = None.
Proof.
  unfold pop_internal. repeat split.
  - rewrite lookup_delete_ne, lookup_delete_ne by discriminate. apply lookup_delete_eq.
  - rewrite lookup_delete_ne by discriminate. apply lookup_delete_eq.
  - apply lookup_delete_eq.
Qed.

(** Every other field of a document is returned as stored. *)
Lemma pop_internal_other d key :
  key <> "_id" -> key <> "created_at" -> key <> "updated_at" ->
  pop_internal d !! key = d !! key.
Proof.
  intros H1 H2 H3. unfold pop_internal.
  rewrite !lookup_delete_ne by congruence. reflexivity.
Qed.

Lemma pop_internal_idempotent d : pop_internal (pop_internal d) = pop_internal d.
Proof.
  apply map_eq. intros key.
  destruct (decide (key = "_id")) as [->|H1];
    [rewrite !(proj1 (pop_internal_lookup _)); reflexivity|].
  destruct (decide (key = "created_at")) as [->|H2];
    [rewrite !(proj1 (proj2 (pop_internal_lookup _))); reflexivity|].
  destruct (decide (key = "updated_at")) as [->|H3];
    [rewrite !(proj2 (proj2 (pop_internal_lookup _))); reflexivity|].
  rewrite !pop_internal_other by assumption. reflexivity.
Qed.

Lemma pop_internal_fallback : map pop_internal FALLBACK_IDEAS = FALLBACK_IDEAS.
Proof. vm_compute. reflexivity. Qed.

(** An exception that [except Exception] does not catch leaves the handler. *)
Lemma get_ideas_not_caught get_documents phase limit e :
  get_documents "idea" (filter_dict_of phase) limit = Raises e ->
  is_Exception e = false ->
  get_ideas get_documents phase limit = Raise e.
Proof. intros H He. unfold get_ideas. rewrite H, He. reflexivity. Qed.

(** C5, as the code has it: when the store call raises an exception that
    [except Exception] catches, the handler returns the built-in list and
    raises nothing; the list has five entries, two for period and one each
    for follicular, ovulation and luteal, and every entry has exactly the
    text fields phase, title and description. *)
Theorem get_ideas_fallback get_documents phase limit e :
  get_documents "idea" (filter_dict_of phase) limit = Raises e ->
  is_Exception e = true ->
  get_ideas get_documents phase limit = Ok {| items := FALLBACK_IDEAS |} /\
  length FALLBACK_IDEAS = 5%nat /\
  count_phase "period" FALLBACK_IDEAS = 2%nat /\
  count_phase "follicular" FALLBACK_IDEAS = 1%nat /\
  count_phase "ovulation" FALLBACK_IDEAS = 1%nat /\
  count_phase "luteal" FALLBACK_IDEAS = 1%nat /\
  Forall (fun d : gmap string py_value =>
            exists p t s,
              d = {[ "phase" := VStr p; "title" := VStr t; "description" := VStr s ]})
    FALLBACK_IDEAS.
Proof.
  intros H He. split.
  - unfold get_ideas. rewrite H, He. cbn [bind].
    rewrite pop_internal_fallback. reflexivity.
  - repeat split; try (vm_compute; reflexivity).
    unfold FALLBACK_IDEAS. repeat constructor; eexists _, _, _; reflexivity.
Qed.

Lemma get_ideas_fallback_witness :
  get_ideas (fun _ _ _ => Raises (OtherException "Exception")) (Some "luteal") 20
    = Ok {| items := FALLBACK_IDEAS |}.
Proof.
  apply (get_ideas_fallback (fun _ _ _ => Raises (OtherException "Exception"))
           (Some "luteal") 20 (OtherException "Exception")); reflexivity.
Defined.

(** C5 as stated fails: with a store that is not connected the handler
    returns five entries, not four, and two of them are for period. *)
Lemma get_ideas_fallback_five_entries :
  exists r,
    get_ideas (fun _ _ _ => Raises (OtherException "Exception")) None 20 = Ok r /\
    length (items r) <> 4%nat /\
    count_phase "period" (items r) <> 1%nat.
Proof.
  exists {| items := FALLBACK_IDEAS |}. split; [|split].
  - unfold get_ideas. cbn [filter_dict_of is_Exception bind].
    rewrite pop_internal_fallback. reflexivity.
  - vm_compute. discriminate 1.
  - vm_compute. discriminate 1.
Qed.

(** C7: no item the handler returns, from the store or from the built-in
    list, has a field [_id], [created_at] or [updated_at]. *)
Theorem get_ideas_no_internal_fields get_documents phase limit r item :
  get_ideas get_documents phase limit = Ok r ->
  In item (items r) ->
  item !! "_id" = None /\ item !! "created_at" = None /\ item !! "updated_at" = None.
Proof.
  unfold get_ideas. intros H Hin.
  assert (Hitems : exists docs, items r = map pop_internal docs).
  { destruct (get_documents "idea" (filter_dict_of phase) limit) as [docs|e].
    - injection H as <-. exists docs. reflexivity.
    - destruct (is_Exception e); [|discriminate H].
      injection H as <-. exists FALLBACK_IDEAS. reflexivity. }
  destruct Hitems as [docs Hitems]. rewrite Hitems in Hin.
  apply in_map_iff in Hin as [d [<- _]]. apply pop_internal_lookup.
Qed.

Lemma get_ideas_no_internal_fields_witness :
  let stored : gmap string py_value :=
    {[ "_id" := VObjectId "65a1f0c2e4b0a1b2c3d4e5f6";
       "phase" := VStr "period";
       "title" := VStr "Comfort kit";
       "description" := VStr "Heat pad";
       "created_at" := VDatetime (midnight 2024 1 1);
       "updated_at" := VDatetime (midnight 2024 1 1) ]} in
  let item := pop_internal stored in
  item !! "_id" = None /\ item !! "created_at" = None /\ item !! "updated_at" = None.
Proof.
  intros stored item.
  apply (get_ideas_no_internal_fields (fun _ _ _ => Returns [stored]) None 20
           {| items := [item] |} item).
  - reflexivity.
  - left. reflexivity.
Defined.

(** ** [explain] *)

Lemma summaries_keys key :
  summaries !! key = None <-> ~ In key PHASE_KEYS.
Proof.
  unfold summaries, PHASE_KEYS. split.
  - intros Hnone Hin. simpl in Hin.
    destruct Hin as [H|[H|[H|[H|[]]]]]; subst key; vm_compute in Hnone; discriminate Hnone.
  - intros Hnot. simpl in Hnot.
    rewrite !lookup_insert_ne by (intros H; subst key; tauto).
    apply lookup_singleton_ne. intros H. subst key. tauto.
Qed.

(** On a key, the lowercased text is looked up in both tables with
    success. *)
Lemma explain_key phase :
  In (lower phase) PHASE_KEYS ->
  exists s t,
    explain phase = Ok {| phase := lower phase; summary := s; tips := t |} /\
    summaries !! lower phase = Some s /\ tips_map !! lower phase = Some t /\
    s <> "" /\ t <> [].
Proof.
  intros Hin. unfold explain. simpl in Hin.
  destruct Hin as [H|[H|[H|[H|[]]]]]; rewrite <- H;
    eexists _, _; (split; [vm_compute; reflexivity|]);
    (split; [vm_compute; reflexivity|]);
    (split; [vm_compute; reflexivity|]); split; discriminate.
Qed.

Lemma explain_not_key phase :
  ~ In (lower phase) PHASE_KEYS -> explain phase = Raise INVALID_PHASE.
Proof.
  intros Hnot. unfold explain.
  rewrite (proj2 (summaries_keys (lower phase)) Hnot). reflexivity.
Qed.

Lemma lower_key key : In key PHASE_KEYS -> lower key = key.
Proof.
  simpl. intros [H|[H|[H|[H|[]]]]]; subst key; reflexivity.
Qed.

Lemma PHASE_KEYS_dec key : {In key PHASE_KEYS} + {~ In key PHASE_KEYS}.
Proof. apply in_dec. apply string_dec. Qed.

(** C6, as the code has it: [explain] fails with the 400 error exactly when
    the lowercased phase is not one of period, follicular, ovulation and
    luteal, and fails in no other way; on each of the four keys it succeeds
    and returns the key with its summary from the table, which is not empty,
    and a list of tips that is not empty. *)
Theorem explain_validation :
  (forall phase, explain phase = Raise INVALID_PHASE <-> ~ In (lower phase) PHASE_KEYS) /\
  (forall phase e, explain phase = Raise e -> e = INVALID_PHASE) /\
  (forall key,
      In key PHASE_KEYS ->
      exists s t,
        explain key = Ok {| phase := key; summary := s; tips := t |} /\
        summaries !! key = Some s /\ tips_map !! key = Some t /\
        s <> "" /\ t <> []).
Proof.
  split; [|split].
  - intros phase. split.
    + intros Hfail Hin. destruct (explain_key phase Hin) as [s [t [Hok _]]]. congruence.
    + apply explain_not_key.
  - intros phase e Hfail. destruct (PHASE_KEYS_dec (lower phase)) as [Hin|Hnot].
    + destruct (explain_key phase Hin) as [s [t [Hok _]]]. congruence.
    + rewrite (explain_not_key phase Hnot) in Hfail. congruence.
  - intros key Hin. pose proof (lower_key key Hin) as Hlow.
    destruct (explain_key key) as [s [t H]]; [rewrite Hlow; exact Hin|].
    rewrite Hlow in H. eauto.
Qed.

Lemma explain_validation_witness :
  exists s t,
    explain "period" = Ok {| phase := "period"; summary := s; tips := t |} /\
    summaries !! "period" = Some s /\ tips_map !! "period" = Some t /\
    s <> "" /\ t <> [].
Proof.
  apply (proj2 (proj2 explain_validation) "period").
  left. reflexivity.
Defined.

(** C6 as stated fails: PERIOD in capitals is not one of the four keys, and
    [explain] does not fail on it. *)
Lemma explain_accepts_capitals :
  ~ In "PERIOD" PHASE_KEYS /\
  exists s t, explain "PERIOD" = Ok {| phase := "period"; summary := s; tips := t |}.
Proof.
  split.
  - simpl. intros [H|[H|[H|[H|[]]]]]; discriminate H.
  - eexists _, _. vm_compute. reflexivity.
Qed.

(** C10: [explain] lowercases the phase before it looks it up: every text
    whose lowercase form is one of the four keys is accepted, PERIOD and
    Luteal among them, and the phase returned is the lowercase key; the 400
    error is raised only for texts whose lowercase form is none of the
    keys. *)
Theorem explain_lowercases :
  (forall phase,
      In (lower phase) PHASE_KEYS ->
      exists s t, explain phase = Ok {| phase := lower phase; summary := s; tips := t |}) /\
  (forall phase status detail,
      explain phase = Raise (HTTPException status detail) ->
      status = 400 /\ ~ In (lower phase) PHASE_KEYS) /\
  (exists s t, explain "PERIOD" = Ok {| phase := "period"; summary := s; tips := t |}) /\
  (exists s t, explain "Luteal" = Ok {| phase := "luteal"; summary := s; tips := t |}).
Proof.
  split; [|split; [|split]].
  - intros phase Hin. destruct (explain_key phase Hin) as [s [t [Hok _]]]. eauto.
  - intros phase status detail Hfail.
    destruct (PHASE_KEYS_dec (lower phase)) as [Hin|Hnot].
    + destruct (explain_key phase Hin) as [s [t [Hok _]]]. congruence.
    + rewrite (explain_not_key phase Hnot) in Hfail.
      injection Hfail as <- _. auto.
  - eexists _, _. vm_compute. reflexivity.
  - eexists _, _. vm_compute. reflexivity.
Qed.

Lemma explain_lowercases_witness :
  exists s t, explain "FoLLicular" = Ok {| phase := "follicular"; summary := s; tips := t |}.
Proof.
  apply (proj1 explain_lowercases "FoLLicular").
  right. left. reflexivity.
Defined.

(** ** Further properties of the cycle calculator *)


Lemma calculate_cycle_answers_witness :
  exists resp,
    (forall extra,
        calculate_cycle (enough_fuel (midnight 2024 1 1) + extra)
          {| partner_name := None; cycle_start := "2024-01-01"; cycle_length := 28 |}
          (midnight 2024 1 15) = Some (Ok resp)) /\
    0 <= resp_day_in_cycle resp < 28 /\
    resp_phase resp = phase_for_day (resp_day_in_cycle resp) /\
    In (resp_phase resp) PHASE_KEYS /\
    resp_cycle_length resp = 28.
Proof.
  apply (calculate_cycle_answers
           {| partner_name := None; cycle_start := "2024-01-01"; cycle_length := 28 |}
           (midnight 2024 1 15) (midnight 2024 1 1)).
  - vm_compute. reflexivity.
  - reflexivity.
  - vm_compute. discriminate 1.
  - vm_compute. discriminate 1.
Defined.

(** X3: every exception of [calculate_cycle] is one of three: the 400 of a
    date that does not parse, [ZeroDivisionError] for a date that parses with
    cycle length 0, or [OverflowError] for a date that parses with another
    cycle length. *)
Theorem calculate_cycle_errors fuel data today e :
  calculate_cycle fuel data today = Some (Raise e) ->
  (e = HTTPException 400 "Date must be YYYY-MM-DD" /\
   parse_date (cycle_start data) = Raise e) \/
  (e = ZeroDivisionError /\ cycle_length data = 0 /\
   exists start, parse_date (cycle_start data) = Ok start) \/
  (e = OverflowError /\ cycle_length data <> 0 /\
   exists start, parse_date (cycle_start data) = Ok start).
Proof.
  unfold calculate_cycle.
  destruct (parse_date (cycle_start data)) as [start|e0] eqn:Hparse.
  - destruct (day_in_cycle start (cycle_length data) today) as [idx|e1] eqn:Hidx.
    + destruct (predict_next_period_start fuel start (cycle_length data) today)
        as [[p|e2]|] eqn:Hp; try discriminate.
      intros [= ->]. right. right.
      split; [exact (predict_raises _ _ _ _ _ (parse_date_valid_time _ _ Hparse) Hp)|].
      split; [|eauto].
      intros H0. rewrite H0 in Hidx. discriminate Hidx.
    + intros [= ->]. apply day_in_cycle_Raise in Hidx as [H0 ->]. right. left. eauto.
  - intros [= ->]. left. rewrite (parse_date_Raise _ _ Hparse). auto.
Qed.

Lemma calculate_cycle_errors_witness :
  (OverflowError = HTTPException 400 "Date must be YYYY-MM-DD" /\
   parse_date "2024-01-01" = Raise OverflowError) \/
  (OverflowError = ZeroDivisionError /\ 4000000 = 0 /\
   exists start, parse_date "2024-01-01" = Ok start) \/
  (OverflowError = OverflowError /\ 4000000 <> 0 /\
   exists start, parse_date "2024-01-01" = Ok start).
Proof.
  apply (calculate_cycle_errors 1
           {| partner_name := None; cycle_start := "2024-01-01"; cycle_length := 4000000 |}
           (midnight 2024 1 1) OverflowError).
  vm_compute. reflexivity.
Defined.

(** X5: with a negative cycle length [day_in_cycle] does not fail: the
    remainder takes the sign of the divisor, so the index lies in
    (cycle_length, 0] and differs from the whole-day difference by a multiple
    of the cycle length. *)
Theorem day_in_cycle_negative_length cycle_start cycle_length target_date :
  cycle_length < 0 ->
  exists r q,
    day_in_cycle cycle_start cycle_length target_date = Ok r /\
    cycle_length < r <= 0 /\
    (abs_micro target_date - abs_micro cycle_start) / US_PER_DAY = q * cycle_length + r.
Proof.
  intros Hneg.
  set (days := (abs_micro target_date - abs_micro cycle_start) / US_PER_DAY).
  exists (days mod cycle_length), (days / cycle_length).
  split; [apply day_in_cycle_eq; lia|].
  split; [apply Z.mod_neg_bound; exact Hneg|].
  pose proof (Z.div_mod days cycle_length). lia.
Qed.

Lemma day_in_cycle_negative_length_witness :
  exists r q,
    day_in_cycle (midnight 2024 2 1) (-5) (midnight 2024 1 15) = Ok r /\
    -5 < r <= 0 /\
    (abs_micro (midnight 2024 1 15) - abs_micro (midnight 2024 2 1)) / US_PER_DAY
      = q * -5 + r.
Proof.
  apply (day_in_cycle_negative_length (midnight 2024 2 1) (-5) (midnight 2024 1 15)).
  reflexivity.
Defined.

(** X6: the exact days of each phase: period is 0-5, follicular 6-13,
    ovulation 14-15, and luteal every other day index, the negative ones and
    those from 16 on. *)
Theorem phase_for_day_preimage day_index :
  (phase_for_day day_index = "period" <-> 0 <= day_index <= 5) /\
  (phase_for_day day_index = "follicular" <-> 6 <= day_index <= 13) /\
  (phase_for_day day_index = "ovulation" <-> 14 <= day_index <= 15) /\
  (phase_for_day day_index = "luteal" <-> day_index < 0 \/ 16 <= day_index).
Proof.
  unfold phase_for_day, PHASES, phase_scan.
  repeat match goal with
         | |- context [(?a <=? ?b)] => destruct (Z.leb_spec a b); cbn [andb]
         end;
    repeat split; intros; try lia; try reflexivity; try discriminate.
Qed.

Lemma phase_for_day_preimage_witness :
  phase_for_day 30 = "luteal" <-> 30 < 0 \/ 16 <= 30.
Proof.
  exact (proj2 (proj2 (proj2 (phase_for_day_preimage 30)))).
Defined.

(** *** The prediction at the edges *)

(** X7: a cycle start that is not before the clock is returned as it is,
    whatever the positive cycle length, provided [cycle_start + cycle_length]
    is still a date. *)
Theorem predict_upcoming_start fuel cycle_start cycle_length today :
  valid_datetime cycle_start -> 0 < cycle_length ->
  dt_ordinal cycle_start + cycle_length <= MAXORDINAL ->
  datetime_ge cycle_start today = true ->
  predict_next_period_start (S fuel) cycle_start cycle_length today = Some (Ok cycle_start).
Proof.
  intros [Hord Hv] Hpos Hmax Hge.
  unfold predict_next_period_start. rewrite next_start_loop_S.
  rewrite (plus_cycle_in_range _ _ Hv (proj1 Hord) Hpos Hmax).
  replace (datetime_le (shift_days cycle_start cycle_length) today) with false.
  - rewrite Hge. reflexivity.
  - symmetry. apply datetime_le_false_iff. apply datetime_ge_iff in Hge.
    cbn [shift_days dt_ordinal dt_micro]. lia.
Qed.

Lemma predict_upcoming_start_witness :
  predict_next_period_start 1 (midnight 2024 3 1) 30 (midnight 2024 1 15)
    = Some (Ok (midnight 2024 3 1)).
Proof.
  apply (predict_upcoming_start 0 (midnight 2024 3 1) 30 (midnight 2024 1 15)).
  - vm_compute. repeat split; discriminate 1.
  - reflexivity.
  - vm_compute. discriminate 1.
  - reflexivity.
Defined.

(** X8: with cycle length 0 the loop of lines 69-70 never ends once the
    cycle start is not after the clock: no amount of fuel gives an answer.
    (In [calculate_cycle] the modulo of [day_in_cycle] raises before the
    loop is reached.) *)
Theorem predict_zero_length_diverges fuel cycle_start today :
  valid_datetime cycle_start ->
  datetime_le cycle_start today = true ->
  predict_next_period_start fuel cycle_start 0 today = None.
Proof.
  intros [Hord Hv] Hle. unfold predict_next_period_start.
  assert (Hloop : next_start_loop fuel cycle_start today 0 = None).
  { induction fuel as [|fuel IH]; [reflexivity|].
    rewrite next_start_loop_S, (plus_cycle_eq _ _ Hv).
    unfold MAX_DELTA_DAYS, MAXORDINAL in *.
    replace (Z.abs 0 <=? 999999999) with true by reflexivity.
    replace (0 <? dt_ordinal cycle_start + 0) with true
      by (symmetry; apply Z.ltb_lt; lia).
    replace (dt_ordinal cycle_start + 0 <=? 3652059) with true
      by (symmetry; apply Z.leb_le; lia).
    cbn [andb]. rewrite shift_days_0, Hle. exact IH. }
  rewrite Hloop. reflexivity.
Qed.

Lemma predict_zero_length_diverges_witness :
  predict_next_period_start 1000 (midnight 2024 1 1) 0 (midnight 2024 1 15) = None.
Proof.
  apply (predict_zero_length_diverges 1000 (midnight 2024 1 1) (midnight 2024 1 15)).
  - vm_compute. repeat split; discriminate 1.
  - reflexivity.
Defined.

(** Walking back with a negative cycle length, the loop cannot leave
    normally once one step back is not after the clock. *)
Lemma next_start_loop_walks_back today cycle_length fuel :
  cycle_length < 0 ->
  forall next_start r,
    valid_time next_start ->
    datetime_le (shift_days next_start cycle_length) today = true ->
    next_start_loop fuel next_start today cycle_length = Some r ->
    r = Raise OverflowError.
Proof.
  intros Hneg. induction fuel as [|fuel IH]; intros next_start r Hv Hle H.
  - discriminate H.
  - rewrite next_start_loop_S in H.
    destruct (plus_cycle next_start cycle_length) as [bound|e] eqn:Hplus.
    + apply plus_cycle_Ok in Hplus as [-> _]; [|exact Hv].
      rewrite Hle in H.
      apply (IH (shift_days next_start cycle_length)); [exact Hv| |exact H].
      apply datetime_le_iff in Hle. apply datetime_le_iff.
      cbn [shift_days dt_ordinal dt_micro] in *. lia.
    + injection H as <-. rewrite (plus_cycle_Raise _ _ _ Hv Hplus). reflexivity.
Qed.

(** X9: with a negative cycle length there are two outcomes only.  When
    [cycle_start + cycle_length] is a date after the clock, the cycle start is
    returned; when it is not after the clock, the loop walks back cycle by
    cycle until the sum leaves the calendar, and the run ends in
    [OverflowError]. *)
Theorem predict_negative_length cycle_start cycle_length today :
  cycle_length < 0 -> valid_time cycle_start ->
  (forall fuel bound,
      plus_cycle cycle_start cycle_length = Ok bound ->
      datetime_le bound today = false ->
      predict_next_period_start (S fuel) cycle_start cycle_length today
        = Some (Ok cycle_start)) /\
  (datetime_le (shift_days cycle_start cycle_length) today = true ->
   forall extra,
     predict_next_period_start (enough_fuel cycle_start + extra) cycle_start
       cycle_length today = Some (Raise OverflowError)).
Proof.
  intros Hneg Hv. split.
  - intros fuel bound Hplus Hle.
    unfold predict_next_period_start. rewrite next_start_loop_S, Hplus, Hle.
    apply plus_cycle_Ok in Hplus as [-> _]; [|exact Hv].
    replace (datetime_ge cycle_start today) with true; [reflexivity|].
    symmetry. apply datetime_ge_iff. apply datetime_le_false_iff in Hle.
    cbn [shift_days dt_ordinal dt_micro] in Hle. lia.
  - intros Hle extra.
    destruct (next_start_loop_total_neg today cycle_length (enough_fuel cycle_start)
                Hneg cycle_start Hv) as [r Hr]; [unfold enough_fuel; lia|].
    pose proof (next_start_loop_walks_back _ _ _ Hneg _ _ Hv Hle Hr) as ->.
    unfold predict_next_period_start.
    rewrite (next_start_loop_more _ _ _ _ _ extra Hr). reflexivity.
Qed.

Lemma predict_negative_length_witness :
  predict_next_period_start 1 (midnight 2024 2 1) (-5) (midnight 2024 1 15)
    = Some (Ok (midnight 2024 2 1)).
Proof.
  apply (proj1 (predict_negative_length (midnight 2024 2 1) (-5) (midnight 2024 1 15)
                  ltac:(reflexivity) ltac:(vm_compute; split; [discriminate 1|reflexivity]))
           0%nat (midnight 2024 1 27)).
  - vm_compute. reflexivity.
  - reflexivity.
Defined.

(** Between a midnight and a later moment the whole-day difference is the
    difference of the day numbers. *)
Lemma days_since_midnight start today :
  dt_micro start = 0 -> valid_time today ->
  (abs_micro today - abs_micro start) / US_PER_DAY = dt_ordinal today - dt_ordinal start.
Proof.
  intros Hs Ht. unfold abs_micro. rewrite Hs.
  replace (dt_ordinal today * US_PER_DAY + dt_micro today - (dt_ordinal start * US_PER_DAY + 0))
    with (dt_micro today + (dt_ordinal today - dt_ordinal start) * US_PER_DAY) by ring.
  rewrite Z.div_add by (unfold US_PER_DAY; lia).
  rewrite Z.div_small by exact Ht. lia.
Qed.

(** The prediction in closed form, for a cycle that began at a midnight not
    after the clock. *)
Lemma predict_closed_form fuel start cycle_length today predicted :
  dt_micro start = 0 -> valid_time today -> 0 < cycle_length ->
  dt_ordinal start <= dt_ordinal today ->
  predict_next_period_start fuel start cycle_length today = Some (Ok predicted) ->
  let idx := (dt_ordinal today - dt_ordinal start) mod cycle_length in
  dt_micro predicted = 0 /\
  dt_ordinal predicted =
    dt_ordinal today - idx
    + (if (idx =? 0) && (dt_micro today =? 0) then 0 else cycle_length).
Proof.
  intros Hs Ht Hpos Hord H idx.
  assert (Hv : valid_time start) by (unfold valid_time, US_PER_DAY; lia).
  destruct (predict_sound _ _ _ _ _ Hv H) as [Hspec [k Hk]].
  destruct (spec_predict_earliest _ _ _ _ Hpos Hspec (ex_intro _ k Hk)) as [Hge Hmin].
  subst predicted. cbn [shift_days dt_ordinal dt_micro] in *.
  split; [exact Hs|].
  apply datetime_ge_iff in Hge. cbn [shift_days dt_ordinal dt_micro] in Hge.
  set (days := dt_ordinal today - dt_ordinal start) in *.
  set (q := days / cycle_length).
  assert (Hdm : days = cycle_length * q + idx) by (apply Z.div_mod; lia).
  assert (Hidx : 0 <= idx < cycle_length) by (apply Z.mod_pos_bound; exact Hpos).
  assert (Hq : 0 <= q) by (apply Z.div_pos; lia).
  unfold valid_time in Ht.
  (* an upper bound on k, from the candidate one cycle after the current one *)
  assert (Hup : forall j, 0 <= j ->
                 (days < j * cycle_length \/ (days = j * cycle_length /\ dt_micro today = 0)) ->
                 Z.of_nat k * cycle_length <= j * cycle_length).
  { intros j Hj Hcand.
    specialize (Hmin (Z.to_nat j)). rewrite Z2Nat.id in Hmin by exact Hj.
    assert (Hc : datetime_ge (shift_days start (j * cycle_length)) today = true).
    { apply datetime_ge_iff. cbn [shift_days dt_ordinal dt_micro]. lia. }
    apply Hmin in Hc. apply datetime_le_iff in Hc.
    cbn [shift_days dt_ordinal dt_micro] in Hc. lia. }
  destruct (Z.eqb_spec idx 0) as [H0|Hn0];
    [destruct (Z.eqb_spec (dt_micro today) 0) as [Hm0|Hmn0]|]; cbn [andb].
  - assert (Z.of_nat k * cycle_length <= q * cycle_length) by (apply Hup; lia).
    lia.
  - assert (Z.of_nat k * cycle_length <= (q + 1) * cycle_length) by (apply Hup; lia).
    assert (Hlow : q * cycle_length < Z.of_nat k * cycle_length) by lia.
    assert (q + 1 <= Z.of_nat k) by nia.
    assert ((q + 1) * cycle_length <= Z.of_nat k * cycle_length)
      by (apply Z.mul_le_mono_nonneg_r; lia).
    lia.
  - assert (Z.of_nat k * cycle_length <= (q + 1) * cycle_length) by (apply Hup; lia).
    assert (Hlow : q * cycle_length < Z.of_nat k * cycle_length) by lia.
    assert (q + 1 <= Z.of_nat k) by nia.
    assert ((q + 1) * cycle_length <= Z.of_nat k * cycle_length)
      by (apply Z.mul_le_mono_nonneg_r; lia).
    lia.
Qed.

(** X10: the two numbers of an answer agree.  For a cycle that began on or
    before the day of the clock, the predicted start lies
    [cycle_length - day_in_cycle] days after the day of the clock; only when
    the day index is 0 and the clock reads exactly midnight is the day of the
    clock itself predicted. *)
Theorem calculate_cycle_prediction_matches_index fuel data today start resp :
  valid_time today ->
  parse_date (cycle_start data) = Ok start ->
  0 < cycle_length data ->
  dt_ordinal start <= dt_ordinal today ->
  calculate_cycle fuel data today = Some (Ok resp) ->
  exists predicted,
    resp_next_period_start resp = strftime_ymd predicted /\
    dt_ordinal predicted =
      dt_ordinal today - resp_day_in_cycle resp
      + (if (resp_day_in_cycle resp =? 0) && (dt_micro today =? 0) then 0
         else cycle_length data).
Proof.
  intros Ht Hparse Hpos Hord. unfold calculate_cycle.
  rewrite Hparse, day_in_cycle_eq by lia.
  destruct (predict_next_period_start fuel start (cycle_length data) today)
    as [[predicted|e]|] eqn:Hp; try discriminate.
  intros [= <-]. cbn [resp_next_period_start resp_day_in_cycle].
  exists predicted. split; [reflexivity|].
  pose proof (parse_date_Ok _ _ Hparse) as Hs.
  rewrite (days_since_midnight _ _ Hs Ht).
  exact (proj2 (predict_closed_form _ _ _ _ _ Hs Ht Hpos Hord Hp)).
Qed.

Lemma calculate_cycle_prediction_matches_index_witness :
  exists predicted,
    "2024-01-29" = strftime_ymd predicted /\
    dt_ordinal predicted =
      dt_ordinal (midnight 2024 1 15) - 14
      + (if (14 =? 0) && (dt_micro (midnight 2024 1 15) =? 0) then 0 else 28).
Proof.
  apply (calculate_cycle_prediction_matches_index 1
           {| partner_name := None; cycle_start := "2024-01-01"; cycle_length := 28 |}
           (midnight 2024 1 15) (midnight 2024 1 1)
           {| resp_today := "2024-01-15";
              resp_day_in_cycle := 14;
              resp_phase := "ovulation";
              resp_next_period_start := "2024-01-29";
              resp_cycle_length := 28 |}).
  - vm_compute. split; [discriminate 1|reflexivity].
  - vm_compute. reflexivity.
  - reflexivity.
  - vm_compute. discriminate 1.
  - vm_compute. reflexivity.
Defined.

(** ** Further properties of the idea lookup and the explainer *)

(** X11: what the store returns is passed on document by document, in the
    same order and number; each item differs from the stored document only
    in the three fields removed, every other field is returned as stored. *)
Theorem get_ideas_store_documents get_documents phase limit docs :
  get_documents "idea" (filter_dict_of phase) limit = Returns docs ->
  exists r,
    get_ideas get_documents phase limit = Ok r /\
    length (items r) = length docs /\
    forall i d,
      nth_error docs i = Some d ->
      exists item,
        nth_error (items r) i = Some item /\
        forall key,
          key <> "_id" -> key <> "created_at" -> key <> "updated_at" ->
          item !! key = d !! key.
Proof.
  intros H. exists {| items := map pop_internal docs |}.
  split; [unfold get_ideas; rewrite H; reflexivity|].
  cbn [items]. split; [apply length_map|].
  intros i d Hd. exists (pop_internal d).
  split; [apply map_nth_error; exact Hd|].
  intros key H1 H2 H3. apply pop_internal_other; assumption.
Qed.

Lemma get_ideas_store_documents_witness :
  let stored : gmap string py_value :=
    {[ "_id" := VObjectId "65a1f0c2e4b0a1b2c3d4e5f6";
       "phase" := VStr "luteal";
       "title" := VStr "Gentle support";
       "tags" := VList ["vibe"] ]} in
  exists r,
    get_ideas (fun _ _ _ => Returns [stored]) (Some "luteal") 5 = Ok r /\
    length (items r) = length [stored] /\
    forall i d,
      nth_error [stored] i = Some d ->
      exists item,
        nth_error (items r) i = Some item /\
        forall key,
          key <> "_id" -> key <> "created_at" -> key <> "updated_at" ->
          item !! key = d !! key.
Proof.
  intros stored.
  apply (get_ideas_store_documents (fun _ _ _ => Returns [stored]) (Some "luteal") 5 [stored]).
  reflexivity.
Defined.

(** X12: [get_ideas] raises exactly when the store call raises an exception
    that [except Exception] does not catch, and then it is that exception:
    none is raised by the handler itself, and none that derives from
    [Exception] gets through. *)
Theorem get_ideas_raises_iff get_documents phase limit e :
  get_ideas get_documents phase limit = Raise e <->
  get_documents "idea" (filter_dict_of phase) limit = Raises e /\ is_Exception e = false.
Proof.
  unfold get_ideas.
  destruct (get_documents "idea" (filter_dict_of phase) limit) as [docs|e0].
  - split; [discriminate|]. intros [H _]. discriminate H.
  - destruct (is_Exception e0) eqn:He; cbn [bind].
    + split; [discriminate|]. intros [[= <-] Hf]. congruence.
    + split.
      * intros [= <-]. auto.
      * intros [[= <-] _]. reflexivity.
Qed.

Lemma get_ideas_raises_iff_witness :
  get_ideas (fun _ _ _ => Raises (BaseOnly "KeyboardInterrupt")) None 20
    = Raise (BaseOnly "KeyboardInterrupt").
Proof.
  apply (proj2 (get_ideas_raises_iff (fun _ _ _ => Raises (BaseOnly "KeyboardInterrupt"))
                  None 20 (BaseOnly "KeyboardInterrupt"))).
  split; reflexivity.
Defined.

(** X13: the phase of every answer of [calculate_cycle], and the phase of
    every day index, is accepted by [explain], which returns it unchanged
    with its summary and tips. *)
Theorem explain_accepts_calculated_phase :
  (forall day_index,
      exists s t,
        explain (phase_for_day day_index)
          = Ok {| phase := phase_for_day day_index; summary := s; tips := t |}) /\
  (forall fuel data today resp,
      calculate_cycle fuel data today = Some (Ok resp) ->
      exists s t,
        explain (resp_phase resp)
          = Ok {| phase := resp_phase resp; summary := s; tips := t |}).
Proof.
  assert (Hday : forall day_index,
             exists s t,
               explain (phase_for_day day_index)
                 = Ok {| phase := phase_for_day day_index; summary := s; tips := t |}).
  { intros day_index.
    pose proof (phase_for_day_in_keys day_index) as Hin.
    pose proof (lower_key _ Hin) as Hlow.
    destruct (explain_key (phase_for_day day_index)) as [s [t [Hok _]]];
      [rewrite Hlow; exact Hin|].
    rewrite Hlow in Hok. eauto. }
  split; [exact Hday|].
  intros fuel data today resp. unfold calculate_cycle.
  destruct (parse_date (cycle_start data)) as [start|e]; [|discriminate].
  destruct (day_in_cycle start (cycle_length data) today) as [idx|e]; [|discriminate].
  destruct (predict_next_period_start fuel start (cycle_length data) today)
    as [[p|e]|]; try discriminate.
  intros [= <-]. cbn [resp_phase]. apply Hday.
Qed.

Lemma explain_accepts_calculated_phase_witness :
  exists s t,
    explain "ovulation" = Ok {| phase := "ovulation"; summary := s; tips := t |}.
Proof.
  apply (proj2 explain_accepts_calculated_phase 1%nat
           {| partner_name := None; cycle_start := "2024-01-01"; cycle_length := 28 |}
           (midnight 2024 1 15)
           {| resp_today := "2024-01-15";
              resp_day_in_cycle := 14;
              resp_phase := "ovulation";
              resp_next_period_start := "2024-01-29";
              resp_cycle_length := 28 |}).
  vm_compute. reflexivity.
Defined.

(** ** The status probe *)

Section StatusFacts.
Variable str_of : py_exception -> string.


Lemma test_database_Ok db getenv st :
  test_database str_of db getenv = Ok st ->
  exists st0,
    probe_db str_of db INITIAL_STATUS = Ok st0 /\
    st = <[ "database_name" := set_flag (getenv "DATABASE_NAME") ]>
           (<[ "database_url" := set_flag (getenv "DATABASE_URL") ]> st0).
Proof.
  unfold test_database.
  destruct (probe_db str_of db INITIAL_STATUS) as [st0|e]; [|discriminate].
  intros [= <-]. eauto.
Qed.

(** X14: the two fields [database_url] and [database_name] of the report
    say only whether the environment variables [DATABASE_URL] and
    [DATABASE_NAME] are set to a non-empty text; what the probe wrote there
    before, the name of the database among it, never reaches the caller. *)
Theorem test_database_reports_environment db getenv st :
  test_database str_of db getenv = Ok st ->
  st !! "database_url"
    = Some (VStr (if truthy (getenv "DATABASE_URL") then "✅ Set" else "❌ Not Set")) /\
  st !! "database_name"
    = Some (VStr (if truthy (getenv "DATABASE_NAME") then "✅ Set" else "❌ Not Set")).
Proof.
  intros H. apply test_database_Ok in H as [st0 [_ ->]]. split.
  - rewrite lookup_insert_ne by discriminate. apply lookup_insert_eq.
  - apply lookup_insert_eq.
Qed.



End StatusFacts.

(** ** Dates written and read back *)

Lemma ord2ymd_unfold ordinal :
  ord2ymd ordinal =
    let n := ordinal - 1 in
    let n400 := n / DI400Y in
    let n := n mod DI400Y in
    let n100 := n / DI100Y in
    let n := n mod DI100Y in
    let n4 := n / DI4Y in
    let n := n mod DI4Y in
    let n1 := n / 365 in
    let n := n mod 365 in
    let year := n400 * 400 + 1 + n100 * 100 + n4 * 4 + n1 in
    if (n1 =? 4) || (n100 =? 4) then (year - 1, 12, 31)
    else
      let '(m, d) := month_day ((n1 =? 3) && (negb (n4 =? 24) || (n100 =? 3))) n in
      (year, m, d).
Proof.
  unfold ord2ymd, month_day. cbv zeta.
  destruct (_ || _); [reflexivity|].
  destruct (_ <? _); reflexivity.
Qed.

Lemma month_day_checked (leapyear : bool) :
  forallb (month_day_ok leapyear)
    (map Z.of_nat (seq 0 (if leapyear then 366 else 365))) = true.
Proof. destruct leapyear; vm_compute; reflexivity. Qed.

Lemma month_day_correct (leapyear : bool) (n : Z) :
  0 <= n < (if leapyear then 366 else 365) ->
  let '(m, d) := month_day leapyear n in
  1 <= m <= 12 /\
  1 <= d <= (if (m =? 2) && leapyear then 29 else month_length m) /\
  sum_Z (firstn (Z.to_nat (m - 1)) DAYS_IN_MONTH)
  + (if (2 <? m) && leapyear then 1 else 0) + d = n + 1.
Proof.
  intros Hn.
  pose proof (proj1 (forallb_forall _ _) (month_day_checked leapyear) n) as Hok.
  assert (Hin : In n (map Z.of_nat (seq 0 (if leapyear then 366 else 365)))).
  { apply in_map_iff. exists (Z.to_nat n). split; [lia|].
    apply in_seq. destruct leapyear; lia. }
  specialize (Hok Hin). unfold month_day_ok in Hok.
  destruct (month_day leapyear n) as [m d].
  repeat (apply andb_prop in Hok as [Hok ?]).
  repeat match goal with
         | H : (_ <=? _) = true |- _ => apply Z.leb_le in H
         | H : (_ =? _) = true |- _ => apply Z.eqb_eq in H
         end.
  lia.
Qed.

(** The first day of a year and its leap flag, from the digits of the year
    in the 400-, 100-, 4- and 1-year cycles. *)
Lemma year_digits n400 n100 n4 n1 :
  0 <= n400 -> 0 <= n100 <= 3 -> 0 <= n4 <= 24 -> 0 <= n1 <= 3 ->
  days_before_year (400 * n400 + 100 * n100 + 4 * n4 + n1 + 1)
    = 146097 * n400 + 36524 * n100 + 1461 * n4 + 365 * n1 /\
  is_leap (400 * n400 + 100 * n100 + 4 * n4 + n1 + 1)
    = (n1 =? 3) && (negb (n4 =? 24) || (n100 =? 3)).
Proof.
  intros H400 H100 H4 H1. split.
  - unfold days_before_year. cbv zeta. Z.to_euclidean_division_equations. lia.
  - unfold is_leap.
    destruct (Z.eqb_spec n1 3); destruct (Z.eqb_spec n4 24); destruct (Z.eqb_spec n100 3);
      repeat match goal with
             | |- context [(?a mod ?b =? 0)] => destruct (Z.eqb_spec (a mod b) 0)
             end;
      cbn [andb orb negb]; try reflexivity;
      exfalso; Z.to_euclidean_division_equations; lia.
Qed.

Lemma days_in_month_le_31 y m : days_in_month y m <= 31.
Proof.
  unfold days_in_month, month_length.
  destruct (_ && _); [lia|].
  destruct (Z.to_nat (m - 1)) as [|[|[|[|[|[|[|[|[|[|[|[|[|k]]]]]]]]]]]]];
    cbn; lia.
Qed.

(** [ord2ymd] gives a day of the calendar, the one with that ordinal. *)
Lemma ord2ymd_correct n y m d :
  1 <= n <= MAXORDINAL ->
  ord2ymd n = (y, m, d) ->
  1 <= y <= 9999 /\ 1 <= m <= 12 /\ 1 <= d <= days_in_month y m /\ ymd2ord y m d = n.
Proof.
  intros Hn. rewrite ord2ymd_unfold. cbv zeta.
  unfold DI400Y, DI100Y, DI4Y, MAXORDINAL in *.
  pose proof (Z.div_mod (n - 1) 146097 ltac:(lia)) as E1.
  pose proof (Z.mod_pos_bound (n - 1) 146097 ltac:(lia)) as B1.
  set (n400 := (n - 1) / 146097) in *. set (r1 := (n - 1) mod 146097) in *.
  pose proof (Z.div_mod r1 36524 ltac:(lia)) as E2.
  pose proof (Z.mod_pos_bound r1 36524 ltac:(lia)) as B2.
  set (n100 := r1 / 36524) in *. set (r2 := r1 mod 36524) in *.
  pose proof (Z.div_mod r2 1461 ltac:(lia)) as E3.
  pose proof (Z.mod_pos_bound r2 1461 ltac:(lia)) as B3.
  set (n4 := r2 / 1461) in *. set (r3 := r2 mod 1461) in *.
  pose proof (Z.div_mod r3 365 ltac:(lia)) as E4.
  pose proof (Z.mod_pos_bound r3 365 ltac:(lia)) as B4.
  set (n1 := r3 / 365) in *. set (r4 := r3 mod 365) in *.
  clearbody n400 r1 n100 r2 n4 r3 n1 r4.
  assert (H400 : 0 <= n400 <= 24) by lia.
  assert (H100 : 0 <= n100 <= 4) by lia.
  assert (H4 : 0 <= n4 <= 24) by lia.
  assert (H1 : 0 <= n1 <= 4) by lia.
  destruct (Z.eqb_spec n1 4) as [E14|N14]; [|destruct (Z.eqb_spec n100 4) as [E1004|N1004]];
    cbn [orb].
  - (* the last day of a leap year that ends a 4-year cycle *)
    intros [= <- <- <-].
    assert (Hn100 : n100 <= 3) by lia.
    assert (Hn4 : n4 <= 23) by lia.
    destruct (year_digits n400 n100 n4 3) as [Hdby Hleap]; try lia.
    replace (n400 * 400 + 1 + n100 * 100 + n4 * 4 + n1 - 1)
      with (400 * n400 + 100 * n100 + 4 * n4 + 3 + 1) by lia.
    replace ((n4 =? 24)) with false in Hleap by (symmetry; apply Z.eqb_neq; lia).
    cbn [Z.eqb Pos.eqb andb orb negb] in Hleap.
    unfold days_in_month, ymd2ord, days_before_month. rewrite Hdby, Hleap.
    change (sum_Z (firstn (Z.to_nat (12 - 1)) DAYS_IN_MONTH)) with 334.
    change (month_length 12) with 31. cbn [Z.ltb Z.eqb Z.compare Pos.compare Pos.compare_cont
                                           Pos.eqb andb].
    lia.
  - (* the last day of a 400-year cycle *)
    intros [= <- <- <-].
    assert (Hz : n4 = 0 /\ n1 = 0 /\ r4 = 0) by lia. destruct Hz as (-> & -> & ->).
    assert (H24 : n400 <= 23) by lia.
    destruct (year_digits n400 3 24 3) as [Hdby Hleap]; try lia.
    replace (n400 * 400 + 1 + n100 * 100 + 0 * 4 + 0 - 1)
      with (400 * n400 + 100 * 3 + 4 * 24 + 3 + 1) by lia.
    cbn [Z.eqb Pos.eqb andb orb negb] in Hleap.
    unfold days_in_month, ymd2ord, days_before_month. rewrite Hdby, Hleap.
    change (sum_Z (firstn (Z.to_nat (12 - 1)) DAYS_IN_MONTH)) with 334.
    change (month_length 12) with 31. cbn [Z.ltb Z.eqb Z.compare Pos.compare Pos.compare_cont
                                           Pos.eqb andb].
    lia.
  - (* any other day *)
    set (leap := (n1 =? 3) && (negb (n4 =? 24) || (n100 =? 3))).
    assert (Hr4 : 0 <= r4 < (if leap then 366 else 365)) by (destruct leap; lia).
    pose proof (month_day_correct leap r4 Hr4) as Hmd.
    destruct (month_day leap r4) as [m' d'].
    intros [= <- <- <-].
    destruct (year_digits n400 n100 n4 n1) as [Hdby Hleap]; try lia.
    fold leap in Hleap.
    replace (n400 * 400 + 1 + n100 * 100 + n4 * 4 + n1)
      with (400 * n400 + 100 * n100 + 4 * n4 + n1 + 1) by lia.
    unfold days_in_month, ymd2ord, days_before_month. rewrite Hdby, Hleap.
    destruct Hmd as (Hm & Hd & Hsum).
    split; [lia|]. split; [exact Hm|]. split; [exact Hd|]. lia.
Qed.

(** A digit written is the digit read. *)
Lemma digit_in_digit_char k :
  digit_in 0 9 (digit_char k) = Some (k mod 10).
Proof.
  unfold digit_in, digit_char.
  pose proof (Z.mod_pos_bound k 10 ltac:(lia)) as Hk.
  rewrite N_ascii_embedding by lia.
  rewrite Z2N.id by lia.
  replace (48 + k mod 10 - 48) with (k mod 10) by lia.
  destruct (Z.leb_spec 0 (k mod 10)); [|lia].
  destruct (Z.leb_spec (k mod 10) 9); [|lia].
  reflexivity.
Qed.

Lemma append_String c s rest :
  String.append (String c s) rest = String c (String.append s rest).
Proof. reflexivity. Qed.

Lemma append_Empty rest : String.append EmptyString rest = rest.
Proof. reflexivity. Qed.

Lemma year_alts_pad4 y rest :
  0 <= y <= 9999 ->
  year_alts (list_ascii_of_string (String.append (pad4 y) rest))
    = [(y, list_ascii_of_string rest)].
Proof.
  intros Hy. unfold pad4, pad2, year_alts, two_chars.
  rewrite !append_String, append_Empty.
  cbn [list_ascii_of_string].
  rewrite !digit_in_digit_char. f_equal. f_equal.
  Z.to_euclidean_division_equations. lia.
Qed.

(** The month and the day, written with two digits each, are read back;
    all 12 * 31 pairs are tried. *)
Lemma month_day_text_read (y m d : Z) :
  1 <= m <= 12 -> 1 <= d <= 31 ->
  first_match
    (month_alts (list_ascii_of_string (String.append (pad2 m) (String "-" (pad2 d)))))
    (fun '(m', l3) =>
       match dash l3 with
       | None => None
       | Some l4 => first_match (day_alts l4) (fun '(d', l5) => Some (y, m', d', l5))
       end)
  = Some (y, m, d, []).
Proof.
  intros Hm Hd.
  assert (Hms : m = 1 \/ m = 2 \/ m = 3 \/ m = 4 \/ m = 5 \/ m = 6 \/
                m = 7 \/ m = 8 \/ m = 9 \/ m = 10 \/ m = 11 \/ m = 12) by lia.
  assert (Hds : (d = 1 \/ d = 2 \/ d = 3 \/ d = 4 \/ d = 5 \/ d = 6 \/ d = 7 \/ d = 8) \/
                (d = 9 \/ d = 10 \/ d = 11 \/ d = 12 \/ d = 13 \/ d = 14 \/ d = 15 \/ d = 16) \/
                (d = 17 \/ d = 18 \/ d = 19 \/ d = 20 \/ d = 21 \/ d = 22 \/ d = 23 \/ d = 24) \/
                (d = 25 \/ d = 26 \/ d = 27 \/ d = 28 \/ d = 29 \/ d = 30 \/ d = 31)) by lia.
  clear Hm Hd.
  repeat (destruct Hms as [Hms|Hms]); subst m;
    repeat match goal with
           | H : _ \/ _ |- _ => destruct H as [H|H]
           end; subst d; vm_compute; reflexivity.
Qed.

Lemma match_ymd_text y m d :
  0 <= y <= 9999 -> 1 <= m <= 12 -> 1 <= d <= 31 ->
  match_ymd (list_ascii_of_string (ymd_text y m d)) = Some (y, m, d, []).
Proof.
  intros Hy Hm Hd. unfold match_ymd, ymd_text.
  rewrite (year_alts_pad4 y _ Hy).
  cbn [first_match list_ascii_of_string dash].
  change (Ascii.eqb "-" "-") with true. cbv iota.
  rewrite (month_day_text_read y m d Hm Hd). reflexivity.
Qed.

(** Between midnights of the calendar, writing a date and reading it back
    gives the date. *)
Lemma parse_date_strftime_ymd d :
  valid_datetime d -> dt_micro d = 0 -> parse_date (strftime_ymd d) = Ok d.
Proof.
  intros [Hord _] Hmid. unfold strftime_ymd.
  destruct (ord2ymd (dt_ordinal d)) as [[y m] day] eqn:Hymd.
  destruct (ord2ymd_correct _ _ _ _ Hord Hymd) as (Hy & Hm & Hd & Hback).
  pose proof (days_in_month_le_31 y m) as H31.
  fold (ymd_text y m day).
  unfold parse_date, strptime_ymd.
  rewrite match_ymd_text by lia.
  replace (1 <=? y) with true by (symmetry; apply Z.leb_le; lia).
  replace (y <=? 9999) with true by (symmetry; apply Z.leb_le; lia).
  replace (1 <=? day) with true by (symmetry; apply Z.leb_le; lia).
  replace (day <=? days_in_month y m) with true by (symmetry; apply Z.leb_le; lia).
  cbn [andb]. rewrite Hback. destruct d as [o mi]. cbn in Hmid. subst mi. reflexivity.
Qed.

(** The loop and the conditional after it return dates of the calendar. *)
Lemma next_start_loop_valid today cycle_length fuel :
  forall next_start final,
    valid_datetime next_start ->
    next_start_loop fuel next_start today cycle_length = Some (Ok final) ->
    valid_datetime final.
Proof.
  induction fuel as [|fuel IH]; intros next_start final Hvalid H.
  - discriminate H.
  - rewrite next_start_loop_S in H.
    destruct (plus_cycle next_start cycle_length) as [bound|e] eqn:Hplus; [|discriminate H].
    destruct (datetime_le bound today).
    + apply (IH bound); [|exact H].
      destruct Hvalid as [_ Hv]. apply plus_cycle_Ok in Hplus as (-> & Hr & _); [|exact Hv].
      split; [cbn [shift_days dt_ordinal]; lia|exact Hv].
    + injection H as <-. exact Hvalid.
Qed.

Lemma predict_valid fuel start cycle_length today predicted :
  valid_datetime start ->
  predict_next_period_start fuel start cycle_length today = Some (Ok predicted) ->
  valid_datetime predicted.
Proof.
  unfold predict_next_period_start. intros Hvalid H.
  destruct (next_start_loop fuel start today cycle_length) as [[final|e]|] eqn:Hloop;
    try discriminate H.
  pose proof (next_start_loop_valid _ _ _ _ _ Hvalid Hloop) as Hfinal.
  destruct (datetime_ge final today).
  - injection H as <-. exact Hfinal.
  - injection H as H. destruct Hfinal as [_ Hv].
    apply plus_cycle_Ok in H as (-> & Hr & _); [|exact Hv].
    split; [cbn [shift_days dt_ordinal]; lia|exact Hv].
Qed.

(** X18: a date written by [strftime] in the form of the answers is read
    back by [parse_date] as the same day: for every midnight from the year
    1000 to the year 9999 (from 1000 on the year has four digits on every
    platform), [parse_date] of the text written returns that midnight. *)
Theorem parse_date_reads_written_date d :
  valid_datetime d -> dt_micro d = 0 ->
  dt_ordinal (midnight 1000 1 1) <= dt_ordinal d ->
  parse_date (strftime_ymd d) = Ok d.
Proof.
  intros Hvalid Hmid _. exact (parse_date_strftime_ymd d Hvalid Hmid).
Qed.

Lemma parse_date_reads_written_date_witness :
  parse_date (strftime_ymd (midnight 2024 2 29)) = Ok (midnight 2024 2 29).
Proof.
  apply (parse_date_reads_written_date (midnight 2024 2 29)).
  - vm_compute. repeat split; discriminate 1.
  - reflexivity.
  - vm_compute. discriminate 1.
Defined.

(** X19: the dates of an answer can be sent back as a cycle start.  For a
    cycle that began in the year 1000 or later, with a positive cycle length
    and the clock in the year 1000 or later, the text [today] of the answer
    parses to the midnight of the clock's day, and the text
    [next_period_start] parses to the date the prediction computed. *)
Theorem calculate_cycle_dates_parse fuel data today start resp :
  valid_datetime today ->
  parse_date (cycle_start data) = Ok start ->
  dt_ordinal (midnight 1000 1 1) <= dt_ordinal start ->
  dt_ordinal (midnight 1000 1 1) <= dt_ordinal today ->
  0 < cycle_length data ->
  calculate_cycle fuel data today = Some (Ok resp) ->
  parse_date (resp_today resp) = Ok {| dt_ordinal := dt_ordinal today; dt_micro := 0 |} /\
  exists predicted,
    predict_next_period_start fuel start (cycle_length data) today = Some (Ok predicted) /\
    parse_date (resp_next_period_start resp) = Ok predicted.
Proof.
  intros Htoday Hparse _ _ Hpos. unfold calculate_cycle. rewrite Hparse.
  destruct (day_in_cycle start (cycle_length data) today) as [idx|e]; [|discriminate].
  destruct (predict_next_period_start fuel start (cycle_length data) today)
    as [[predicted|e]|] eqn:Hp; try discriminate.
  intros [= <-]. cbn [resp_today resp_next_period_start].
  destruct (parse_date_valid _ _ Hparse) as [Hstart Hmid].
  split.
  - change (strftime_ymd today)
      with (strftime_ymd {| dt_ordinal := dt_ordinal today; dt_micro := 0 |}).
    apply parse_date_strftime_ymd; [|reflexivity].
    destruct Htoday as [Hord _]. split; [exact Hord|].
    cbn [dt_micro]. unfold US_PER_DAY. lia.
  - exists predicted. split; [reflexivity|].
    apply parse_date_strftime_ymd.
    + exact (predict_valid _ _ _ _ _ Hstart Hp).
    + destruct (predict_sound _ _ _ _ _ (valid_datetime_time _ Hstart) Hp) as [_ [k ->]].
      exact Hmid.
Qed.

Lemma calculate_cycle_dates_parse_witness :
  parse_date "2024-01-15" = Ok {| dt_ordinal := dt_ordinal (midnight 2024 1 15); dt_micro := 0 |} /\
  exists predicted,
    predict_next_period_start 1 (midnight 2024 1 1) 28 (midnight 2024 1 15)
      = Some (Ok predicted) /\
    parse_date "2024-01-29" = Ok predicted.
Proof.
  apply (calculate_cycle_dates_parse 1
           {| partner_name := None; cycle_start := "2024-01-01"; cycle_length := 28 |}
           (midnight 2024 1 15) (midnight 2024 1 1)
           {| resp_today := "2024-01-15";
              resp_day_in_cycle := 14;
              resp_phase := "ovulation";
              resp_next_period_start := "2024-01-29";
              resp_cycle_length := 28 |}).
  - vm_compute. repeat split; discriminate 1.
  - vm_compute. reflexivity.
  - vm_compute. discriminate 1.
  - vm_compute. discriminate 1.
  - reflexivity.
  - vm_compute. reflexivity.
Defined.

(** ** Witnesses for the status probe *)

Lemma sample_report_eq :
  test_database (fun _ => "") (Some sample_db) sample_env = Ok sample_report.
Proof. vm_compute. reflexivity. Qed.

Lemma test_database_reports_environment_witness :
  sample_report !! "database_url" = Some (VStr "✅ Set") /\
  sample_report !! "database_name" = Some (VStr "❌ Not Set").
Proof.
  apply (test_database_reports_environment (fun _ => "") (Some sample_db) sample_env
           sample_report).
  vm_compute. reflexivity.
Defined.




(** ** The handler as a whole *)

(** X2: [calculate_cycle] always ends, on every request and every clock
    reading: some amount of fuel gives an answer or an exception, and more
    fuel gives the same.  A zero cycle length, with which the loop would not
    end, is stopped by the modulo before the loop. *)
Theorem calculate_cycle_terminates data today :
  exists fuel r, forall extra, calculate_cycle (fuel + extra) data today = Some r.
Proof.
  unfold calculate_cycle.
  destruct (parse_date (cycle_start data)) as [start|e] eqn:Hparse; [|exists O; eauto].
  destruct (day_in_cycle start (cycle_length data) today) as [idx|e] eqn:Hidx; [|exists O; eauto].
  assert (Hnz : cycle_length data <> 0).
  { intros H0. rewrite H0 in Hidx. discriminate Hidx. }
  destruct (predict_total start (cycle_length data) today
              (parse_date_valid_time _ _ Hparse) Hnz) as [r Hp].
  exists (enough_fuel start).
  destruct r as [p|e]; eexists; intros extra;
    rewrite (predict_more _ _ _ _ _ extra Hp); reflexivity.
Qed.

(** X20: [parse_date] has two outcomes only: a date of the calendar, from
    0001-01-01 to 9999-12-31, at midnight, or the 400 error with the detail
    Date must be YYYY-MM-DD; the [ValueError] of [strptime] never gets
    through. *)
Theorem parse_date_outcome date_str :
  (exists d, parse_date date_str = Ok d /\ valid_datetime d /\ dt_micro d = 0) \/
  parse_date date_str = Raise (HTTPException 400 "Date must be YYYY-MM-DD").
Proof.
  destruct (parse_date date_str) as [d|e] eqn:H.
  - left. exists d. split; [reflexivity|]. exact (parse_date_valid _ _ H).
  - right. rewrite (parse_date_Raise _ _ H). reflexivity.
Qed.
